(** * NutriSnap FatSecret adapter: a shallow embedding and its properties

    The development follows
    [functions/src/utils/fatSecretAPI.js] (token manager, search, detail
    and autocomplete clients, normalizer, orchestrator) and the callable
    handlers that expose them.

    - JavaScript values are a small JSON-shaped inductive type.
    - [async] functions run in a state-and-exception monad over a [World]
      holding the response cache, the clock, the process environment, the
      upstream services and a trace of cache and network events.
    - The numeric builtins whose results depend on IEEE-754 rounding
      ([parseFloat] and [ToNumber] on strings, [Number.prototype.toString])
      are taken as parameters ([Builtins]); every theorem holds for all of
      them.
    - Calls to the logger change no result and are left out; where the
      argument of a log line reads a property, the read is kept. *)

From Stdlib Require Import ZArith String Ascii List Bool Lia.
From Stdlib Require Import Floats.SpecFloat.
From stdpp Require Import base option gmap strings pretty list.

Set Warnings "-register-all".

Open Scope string_scope.
Open Scope list_scope.
Open Scope Z_scope.

(** ** Strings: [String.prototype.trim] and [toLowerCase]

    Strings are sequences of 8-bit characters; case mapping and white
    space are those of ASCII. *)

Definition is_space (c : ascii) : bool :=
  let n := nat_of_ascii c in
  ((9 <=? n)%nat && (n <=? 13)%nat) || (n =? 32)%nat.

Definition lower_char (c : ascii) : ascii :=
  let n := nat_of_ascii c in
  if ((65 <=? n)%nat && (n <=? 90)%nat) then ascii_of_nat (n + 32) else c.

Fixpoint toLowerCase (s : string) : string :=
  match s with
  | EmptyString => EmptyString
  | String c r => String (lower_char c) (toLowerCase r)
  end.

Fixpoint trimStart (s : string) : string :=
  match s with
  | EmptyString => EmptyString
  | String c r => if is_space c then trimStart r else s
  end.

Fixpoint trimEnd (s : string) : string :=
  match s with
  | EmptyString => EmptyString
  | String c r =>
      match trimEnd r with
      | EmptyString => if is_space c then EmptyString else String c EmptyString
      | r' => String c r'
      end
  end.

Definition trim (s : string) : string := trimEnd (trimStart s).

(** ** JavaScript values *)

(** Numbers are IEEE-754 doubles, in the Standard Library's
    specification format. *)
Definition number := spec_float.

Definition zero : number := S754_zero false.
Definition NaN : number := S754_nan.

(** [ToBoolean] on numbers: [NaN], [+0] and [-0] are falsy. *)
Definition num_truthy (n : number) : bool :=
  match n with
  | S754_zero _ | S754_nan => false
  | _ => true
  end.

(** The double nearest to an integer. *)
Definition number_of_Z (z : Z) : number := binary_normalize 53 1024 z 0 false.

Inductive value : Type :=
| VUndefined
| VNull
| VBool (b : bool)
| VNum (n : number)
| VStr (s : string)
| VArr (items : list value)
| VObj (fields : list (string * value)).

(** [ToBoolean]. *)
Definition truthy (v : value) : bool :=
  match v with
  | VUndefined | VNull => false
  | VBool b => b
  | VNum n => num_truthy n
  | VStr s => negb (String.eqb s "")
  | VArr _ | VObj _ => true
  end.

Definition nullish (v : value) : bool :=
  match v with
  | VUndefined | VNull => true
  | _ => false
  end.

Definition isArray (v : value) : bool :=
  match v with
  | VArr _ => true
  | _ => false
  end.

(** [a || b]. *)
Definition js_or (a b : value) : value := if truthy a then a else b.

(** [n || 0] on numbers. *)
Definition num_or_zero (n : number) : number := if num_truthy n then n else zero.

(** Own-property lookup in an object literal. *)
Fixpoint field (fs : list (string * value)) (k : string) : value :=
  match fs with
  | [] => VUndefined
  | (k', v) :: rest => if String.eqb k' k then v else field rest k
  end.

(** ** Exceptions and results *)

Inductive exn : Type :=
| JsError (message : string)
| JsTypeError (message : string)
| JsSyntaxError (message : string)
| FetchError (message : string)
| HttpsError (code : string) (message : string) (details : option string).

(** [error.message]. *)
Definition exn_message (e : exn) : string :=
  match e with
  | JsError m | JsTypeError m | JsSyntaxError m | FetchError m => m
  | HttpsError _ m _ => m
  end.

Inductive result (A : Type) : Type :=
| Ok (a : A)
| Throw (e : exn).
Arguments Ok {A} a.
Arguments Throw {A} e.

(** [v.k] for a property name [k] that none of the builtin prototypes
    defines: a [TypeError] on [null] and [undefined], the field of an
    object, [undefined] on every other value. *)
Definition get_prop (v : value) (k : string) : result value :=
  match v with
  | VUndefined =>
      Throw (JsTypeError ("Cannot read properties of undefined (reading '" +:+ k +:+ "')"))
  | VNull =>
      Throw (JsTypeError ("Cannot read properties of null (reading '" +:+ k +:+ "')"))
  | VObj fs => Ok (field fs k)
  | _ => Ok VUndefined
  end.

(** [v.k] where the receiver is known not to be [null] or [undefined]. *)
Definition prop (v : value) (k : string) : value :=
  match get_prop v k with
  | Ok x => x
  | Throw _ => VUndefined
  end.

(** [v[0]]. *)
Definition index0 (v : value) : result value :=
  match v with
  | VUndefined =>
      Throw (JsTypeError "Cannot read properties of undefined (reading '0')")
  | VNull =>
      Throw (JsTypeError "Cannot read properties of null (reading '0')")
  | VArr (x :: _) => Ok x
  | VStr (String c _) => Ok (VStr (String c EmptyString))
  | VObj fs => Ok (field fs "0")
  | _ => Ok VUndefined
  end.

(** [v.length === 0]. *)
Definition length_is_zero (v : value) : result bool :=
  match v with
  | VUndefined =>
      Throw (JsTypeError "Cannot read properties of undefined (reading 'length')")
  | VNull =>
      Throw (JsTypeError "Cannot read properties of null (reading 'length')")
  | VArr [] => Ok true
  | VStr EmptyString => Ok true
  | _ => Ok false
  end.

(** [v.name()] for a method [name] of [String.prototype]: the receiver
    when it is a string, a [TypeError] otherwise. *)
Definition string_receiver (v : value) (name : string) : result string :=
  match v with
  | VStr s => Ok s
  | VUndefined =>
      Throw (JsTypeError ("Cannot read properties of undefined (reading '" +:+ name +:+ "')"))
  | VNull =>
      Throw (JsTypeError ("Cannot read properties of null (reading '" +:+ name +:+ "')"))
  | _ => Throw (JsTypeError (name +:+ " is not a function"))
  end.

(** ** The state-and-exception monad

    A computation may change the state before it throws; the handler of
    [try_catch] then runs in the changed state, as a [catch] block does. *)

Definition M (S A : Type) : Type := S -> result A * S.

Definition ret {S A} (a : A) : M S A := fun s => (Ok a, s).

Definition throw {S A} (e : exn) : M S A := fun s => (Throw e, s).

Definition bind {S A B} (m : M S A) (k : A -> M S B) : M S B :=
  fun s =>
    match m s with
    | (Ok a, s') => k a s'
    | (Throw e, s') => (Throw e, s')
    end.

Definition try_catch {S A} (body : M S A) (handler : exn -> M S A) : M S A :=
  fun s =>
    match body s with
    | (Ok a, s') => (Ok a, s')
    | (Throw e, s') => handler e s'
    end.

Definition lift {S A} (r : result A) : M S A := fun s => (r, s).

Definition modify {S} (f : S -> S) : M S unit := fun s => (Ok tt, f s).

Notation "x <- c1 ;; c2" := (bind c1 (fun x => c2))
  (at level 100, c1 at next level, right associativity).
Notation "c1 ;;; c2" := (bind c1 (fun _ => c2))
  (at level 100, right associativity).

(** ** Builtins that depend on floating-point rounding *)

(** A numeric literal starts, after the leading white space, with a digit,
    a sign, a dot or the [I] of [Infinity]. *)
Definition numeric_start (s : string) : bool :=
  match s with
  | EmptyString => false
  | String c _ =>
      let n := nat_of_ascii c in
      ((48 <=? n)%nat && (n <=? 57)%nat)
      || (n =? 43)%nat || (n =? 45)%nat || (n =? 46)%nat || (n =? 73)%nat
  end.

Record Builtins : Type := {
  (** [parseFloat] on a string: the longest numeric prefix, or [NaN]. *)
  string_parseFloat : string -> number;
  (** [ToNumber] on a string. *)
  string_toNumber : string -> number;
  (** [Number.prototype.toString]. *)
  number_toString : number -> string;
  (** Without a numeric prefix, [parseFloat] is [NaN]. *)
  parseFloat_no_prefix :
    forall s, numeric_start (trimStart s) = false -> string_parseFloat s = NaN
}.

(** [Math.min] of two numbers. *)
Definition math_min (a b : number) : number :=
  match SFcompare a b with
  | Some Lt => a
  | Some Gt => b
  | Some Eq =>
      match a with
      | S754_zero true => a
      | _ => b
      end
  | None => NaN
  end.

(** ** The world: cache, clock, environment, upstream services *)

(** The body of a successful token response. *)
Record TokenData : Type := {
  access_token : string;
  expires_in : Z
}.

(** [{...tokenData, expires_at}]; times are milliseconds since the epoch. *)
Record CachedToken : Type := {
  token_data : TokenData;
  expires_at : Z
}.

Inductive Stored : Type :=
| StoredToken (t : CachedToken)
| StoredJson (v : value).

Record Entry : Type := {
  stored : Stored;
  fresh_until : Z
}.

Record Request : Type := {
  url : string;
  headers : list (string * string);
  body : list (string * string)
}.

Record Response (A : Type) : Type := {
  status : Z;
  text : string;
  json : option A
}.
Arguments status {A} r.
Arguments text {A} r.
Arguments json {A} r.

(** [response.ok]. *)
Definition ok {A} (r : Response A) : bool :=
  (200 <=? status r) && (status r <=? 299).

Inductive Outcome (A : Type) : Type :=
| Rejected (message : string)
| Responded (r : Response A).
Arguments Rejected {A} message.
Arguments Responded {A} r.

Record Reply (A : Type) : Type := {
  latency : N;
  outcome : Outcome A
}.
Arguments latency {A} r.
Arguments outcome {A} r.

Inductive Event : Type :=
| CacheGet (key : string)
| CachePut (key : string) (v : Stored) (ttl : Z)
| Sent (r : Request).

(** The trace holds the cache and network events, the latest first.  The
    upstream services answer a request by the number of events before it
    and its content. *)
Record World : Type := {
  cache : gmap string Entry;
  clock : Z;
  FATSECRET_CLIENT_ID : option string;
  FATSECRET_CLIENT_SECRET : option string;
  trace : list Event;
  token_endpoint : nat -> Request -> Reply TokenData;
  api_endpoint : nat -> Request -> Reply value
}.

Definition record (e : Event) (w : World) : World :=
  {| cache := cache w; clock := clock w;
     FATSECRET_CLIENT_ID := FATSECRET_CLIENT_ID w;
     FATSECRET_CLIENT_SECRET := FATSECRET_CLIENT_SECRET w;
     trace := e :: trace w;
     token_endpoint := token_endpoint w; api_endpoint := api_endpoint w |}.

Definition advance (ms : Z) (w : World) : World :=
  {| cache := cache w; clock := clock w + ms;
     FATSECRET_CLIENT_ID := FATSECRET_CLIENT_ID w;
     FATSECRET_CLIENT_SECRET := FATSECRET_CLIENT_SECRET w;
     trace := trace w;
     token_endpoint := token_endpoint w; api_endpoint := api_endpoint w |}.

Definition set_cache (c : gmap string Entry) (w : World) : World :=
  {| cache := c; clock := clock w;
     FATSECRET_CLIENT_ID := FATSECRET_CLIENT_ID w;
     FATSECRET_CLIENT_SECRET := FATSECRET_CLIENT_SECRET w;
     trace := trace w;
     token_endpoint := token_endpoint w; api_endpoint := api_endpoint w |}.

(** [Date.now()]. *)
Definition Date_now : M World Z := fun w => (Ok (clock w), w).

(** Modelled from the spec: the read of the TTL cache behind
    [apiUtils.getCachedResponse], of the module [./apiUtils] that the
    adapter requires.  The cache maps a string key to a stored value with
    an expiration; a read after the expiration is treated as absent. *)
Definition cache_lookup (key : string) (w : World) : option Stored :=
  match cache w !! key with
  | Some e => if clock w <=? fresh_until e then Some (stored e) else None
  | None => None
  end.

(** Modelled from the spec: the write of the TTL cache behind
    [apiUtils.cacheResponse], of the module [./apiUtils] that the adapter
    requires; [put(key, value, ttlSeconds)] stores the value with its
    expiry. *)
Definition cache_store (key : string) (v : Stored) (ttlSeconds : Z) (w : World) : World :=
  record (CachePut key v ttlSeconds)
    (set_cache (<[key := {| stored := v;
                            fresh_until := clock w + ttlSeconds * 1000 |}]> (cache w)) w).

(** Modelled from the spec: [apiUtils.getCachedResponse(key)], a read of
    the TTL cache. *)
Definition getCachedResponse (key : string) : M World (option Stored) :=
  fun w => (Ok (cache_lookup key w), record (CacheGet key) w).

(** Modelled from the spec: [apiUtils.cacheResponse(key, value, ttlSeconds)],
    a write of the TTL cache. *)
Definition cacheResponse (key : string) (v : Stored) (ttlSeconds : Z) : M World unit :=
  fun w => (Ok tt, cache_store key v ttlSeconds w).

(** [await fetch(url, init)]: the request is sent, time passes, and the
    promise resolves to a response or rejects. *)
Definition fetch {A} (endpoint : World -> nat -> Request -> Reply A)
    (req : Request) : M World (Response A) :=
  fun w =>
    let reply := endpoint w (length (trace w)) req in
    let w' := advance (Z.of_N (latency reply)) (record (Sent req) w) in
    match outcome reply with
    | Rejected m => (Throw (FetchError m), w')
    | Responded r => (Ok r, w')
    end.

(** [await response.json()]. *)
Definition response_json {A} (r : Response A) : M World A :=
  match json r with
  | Some a => ret a
  | None => throw (JsSyntaxError "Unexpected token in JSON")
  end.

(** A value of [process.env]: unset and the empty string are falsy. *)
Definition env_truthy (o : option string) : bool :=
  match o with
  | Some s => negb (String.eqb s "")
  | None => false
  end.

(** The string that a set variable holds. *)
Definition env_string (o : option string) : string :=
  match o with
  | Some s => s
  | None => ""
  end.

Definition FATSECRET_TOKEN_URL : string := "https://oauth.fatsecret.com/connect/token".
Definition FATSECRET_API_URL : string := "https://platform.fatsecret.com/rest/server.api".
Definition TOKEN_CACHE_KEY : string := "fatsecret_token".

Definition form_headers : list (string * string) :=
  [("Content-Type", "application/x-www-form-urlencoded")].

Definition bearer_headers (accessToken : string) : list (string * string) :=
  [("Content-Type", "application/x-www-form-urlencoded");
   ("Authorization", "Bearer " +:+ accessToken)].

Section Adapter.

Context (js : Builtins).

(** [ToString], as template literals and [URLSearchParams] apply it. *)
Fixpoint toString (v : value) : string :=
  match v with
  | VUndefined => "undefined"
  | VNull => "null"
  | VBool true => "true"
  | VBool false => "false"
  | VNum n => number_toString js n
  | VStr s => s
  | VArr items =>
      (fix join (l : list value) : string :=
         match l with
         | [] => ""
         | x :: rest =>
             (if nullish x then "" else toString x) +:+
             match rest with
             | [] => ""
             | _ => "," +:+ join rest
             end
         end) items
  | VObj _ => "[object Object]"
  end.

Definition parseFloat (v : value) : number := string_parseFloat js (toString v).

(** ** The normalizer: [standardizeNutritionData] *)

Record Nutrition : Type := {
  calories : number;
  protein : number;
  fat : number;
  carbohydrates : number;
  foodName : value;
  source : string;
  servingSize : value;
  microNutrients : gmap string number
}.

Definition set_calories (x : number) (n : Nutrition) : Nutrition :=
  {| calories := x; protein := protein n; fat := fat n;
     carbohydrates := carbohydrates n; foodName := foodName n;
     source := source n; servingSize := servingSize n;
     microNutrients := microNutrients n |}.

Definition set_protein (x : number) (n : Nutrition) : Nutrition :=
  {| calories := calories n; protein := x; fat := fat n;
     carbohydrates := carbohydrates n; foodName := foodName n;
     source := source n; servingSize := servingSize n;
     microNutrients := microNutrients n |}.

Definition set_fat (x : number) (n : Nutrition) : Nutrition :=
  {| calories := calories n; protein := protein n; fat := x;
     carbohydrates := carbohydrates n; foodName := foodName n;
     source := source n; servingSize := servingSize n;
     microNutrients := microNutrients n |}.

Definition set_carbohydrates (x : number) (n : Nutrition) : Nutrition :=
  {| calories := calories n; protein := protein n; fat := fat n;
     carbohydrates := x; foodName := foodName n;
     source := source n; servingSize := servingSize n;
     microNutrients := microNutrients n |}.

Definition set_servingSize (x : value) (n : Nutrition) : Nutrition :=
  {| calories := calories n; protein := protein n; fat := fat n;
     carbohydrates := carbohydrates n; foodName := foodName n;
     source := source n; servingSize := x;
     microNutrients := microNutrients n |}.

Definition set_micro (k : string) (x : number) (n : Nutrition) : Nutrition :=
  {| calories := calories n; protein := protein n; fat := fat n;
     carbohydrates := carbohydrates n; foodName := foodName n;
     source := source n; servingSize := servingSize n;
     microNutrients := <[k := x]> (microNutrients n) |}.

(** The record [nutrition] as first built (lines 203-212). *)
Definition default_nutrition (food_name : value) : Nutrition :=
  {| calories := zero; protein := zero; fat := zero; carbohydrates := zero;
     foodName := js_or food_name (VStr "Unknown Food");
     source := "FatSecret";
     servingSize := VStr "100g";
     microNutrients := ∅ |}.

(** [if (serving.src) nutrition.microNutrients.out = parseFloat(serving.src)]. *)
Definition copy_micro (serving : value) (src out : string) : M Nutrition unit :=
  x <- lift (get_prop serving src) ;;
  if truthy x then modify (set_micro out (parseFloat x)) else ret tt.

(** The body of the [try] block (lines 215-240).  Every [return] of the
    function returns the one object [nutrition], which is the state here. *)
Definition standardize_try (fatSecretFood : value) : M Nutrition unit :=
  servings <- lift (get_prop fatSecretFood "servings") ;;
  if negb (truthy servings) then ret tt else
  sv <- lift (get_prop servings "serving") ;;
  if negb (truthy sv) then ret tt else
  serving <- lift (if isArray sv then index0 sv else Ok sv) ;;
  c <- lift (get_prop serving "calories") ;;
  modify (set_calories (num_or_zero (parseFloat c))) ;;;
  p <- lift (get_prop serving "protein") ;;
  modify (set_protein (num_or_zero (parseFloat p))) ;;;
  f <- lift (get_prop serving "fat") ;;
  modify (set_fat (num_or_zero (parseFloat f))) ;;;
  ch <- lift (get_prop serving "carbohydrate") ;;
  modify (set_carbohydrates (num_or_zero (parseFloat ch))) ;;;
  d <- lift (get_prop serving "serving_description") ;;
  modify (set_servingSize (js_or d (VStr "100g"))) ;;;
  copy_micro serving "fiber" "fiber" ;;;
  copy_micro serving "sugar" "sugar" ;;;
  copy_micro serving "sodium" "sodium" ;;;
  copy_micro serving "potassium" "potassium" ;;;
  copy_micro serving "cholesterol" "cholesterol" ;;;
  copy_micro serving "saturated_fat" "saturatedFat".

(** [fatSecretFood.food_name] is read while [nutrition] is built, before
    the [try] block is entered. *)
Definition standardizeNutritionData (fatSecretFood : value) : result Nutrition :=
  match get_prop fatSecretFood "food_name" with
  | Throw e => Throw e
  | Ok food_name =>
      Ok (snd (try_catch (standardize_try fatSecretFood)
                         (fun _ => ret tt)
                         (default_nutrition food_name)))
  end.

(** [JSON]-shaped view of the record, as it is cached and returned.  The
    keys of [microNutrients] come in the map's order. *)
Definition nutrition_value (n : Nutrition) : value :=
  VObj [("calories", VNum (calories n));
        ("protein", VNum (protein n));
        ("fat", VNum (fat n));
        ("carbohydrates", VNum (carbohydrates n));
        ("foodName", foodName n);
        ("source", VStr (source n));
        ("servingSize", servingSize n);
        ("microNutrients",
         VObj (map (fun kx => (fst kx, VNum (snd kx)))
                   (map_to_list (microNutrients n))))].

(** ** Reading the cache from a client *)

Definition token_value (t : CachedToken) : value :=
  VObj [("access_token", VStr (access_token (token_data t)));
        ("expires_in", VNum (number_of_Z (expires_in (token_data t))));
        ("expires_at", VNum (number_of_Z (expires_at t)))].

Definition stored_value (s : Stored) : value :=
  match s with
  | StoredJson v => v
  | StoredToken t => token_value t
  end.

(** What a client holds after [getCachedResponse]: the stored value, or
    [null] on a miss. *)
Definition cached_value (o : option Stored) : value :=
  match o with
  | Some s => stored_value s
  | None => VNull
  end.

Definition read {A} (f : World -> A) : M World A := fun w => (Ok (f w), w).

(** ** Token manager: [getAccessToken] (lines 20-74) *)

Definition token_request (clientId clientSecret : string) : Request :=
  {| url := FATSECRET_TOKEN_URL;
     headers := form_headers;
     body := [("grant_type", "client_credentials");
              ("scope", "basic premier barcode localization");
              ("client_id", clientId);
              ("client_secret", clientSecret)] |}.

(** Lines 29-69: the grant exchange. *)
Definition request_token : M World string :=
  clientId <- read FATSECRET_CLIENT_ID ;;
  clientSecret <- read FATSECRET_CLIENT_SECRET ;;
  if negb (env_truthy clientId) || negb (env_truthy clientSecret)
  then throw (JsError "FatSecret API credentials not configured")
  else
    tokenResponse <- fetch token_endpoint
                       (token_request (env_string clientId) (env_string clientSecret)) ;;
    if negb (ok tokenResponse)
    then throw (JsError ("Failed to get FatSecret token: " +:+ pretty (status tokenResponse)))
    else
      tokenData <- response_json tokenResponse ;;
      now <- Date_now ;;
      let tokenWithExpiry :=
        {| token_data := tokenData;
           expires_at := now + expires_in tokenData * 1000 - 60000 |} in
      cacheResponse TOKEN_CACHE_KEY (StoredToken tokenWithExpiry) (expires_in tokenData) ;;;
      ret (access_token tokenData).

(** Only this function writes [TOKEN_CACHE_KEY], and it writes tokens; any
    other value found under the key counts as no token. *)
Definition getAccessToken : M World string :=
  try_catch
    (cachedToken <- getCachedResponse TOKEN_CACHE_KEY ;;
     now <- Date_now ;;
     match cachedToken with
     | Some (StoredToken t) =>
         if expires_at t >? now
         then ret (access_token (token_data t))
         else request_token
     | _ => request_token
     end)
    (fun error => throw error).

(** ** Search client: [searchFoods] (lines 82-140) *)

Definition search_key (query : string) : string :=
  "fatsecret_search_" +:+ trim (toLowerCase query).

Definition search_request (accessToken query : string) (maxResults : number) : Request :=
  {| url := FATSECRET_API_URL;
     headers := bearer_headers accessToken;
     body := [("method", "foods.search");
              ("search_expression", query);
              ("max_results", number_toString js maxResults);
              ("format", "json")] |}.

Definition searchFoods (query : string) (maxResults : number) : M World value :=
  try_catch
    (let cacheKey := search_key query in
     cachedResults <- getCachedResponse cacheKey ;;
     if truthy (cached_value cachedResults) then ret (cached_value cachedResults) else
     accessToken <- getAccessToken ;;
     searchResponse <- fetch api_endpoint (search_request accessToken query maxResults) ;;
     if negb (ok searchResponse)
     then throw (JsError ("Failed to search FatSecret: " +:+ pretty (status searchResponse)))
     else
       searchData <- response_json searchResponse ;;
       foods <- lift (get_prop searchData "foods") ;;
       if negb (truthy foods) then ret (VArr []) else
       food <- lift (get_prop foods "food") ;;
       if negb (truthy food) then ret (VArr []) else
       let foods := if isArray food then food else VArr [food] in
       cacheResponse cacheKey (StoredJson foods) 86400 ;;;
       ret foods)
    (fun error => ret (VArr [])).

(** ** Detail client: [getFoodDetails] (lines 147-194) *)

Definition food_key (foodId : value) : string :=
  "fatsecret_food_" +:+ toString foodId.

Definition details_request (accessToken : string) (foodId : value) : Request :=
  {| url := FATSECRET_API_URL;
     headers := bearer_headers accessToken;
     body := [("method", "food.get.v2");
              ("food_id", toString foodId);
              ("format", "json");
              ("include_sub_categories", "true")] |}.

Definition getFoodDetails (foodId : value) : M World value :=
  try_catch
    (let cacheKey := food_key foodId in
     cachedResults <- getCachedResponse cacheKey ;;
     if truthy (cached_value cachedResults) then ret (cached_value cachedResults) else
     accessToken <- getAccessToken ;;
     detailsResponse <- fetch api_endpoint (details_request accessToken foodId) ;;
     if negb (ok detailsResponse)
     then throw (JsError ("Failed to get FatSecret food details: "
                          +:+ pretty (status detailsResponse)))
     else
       detailsData <- response_json detailsResponse ;;
       food <- lift (get_prop detailsData "food") ;;
       cacheResponse cacheKey (StoredJson food) 604800 ;;;
       ret food)
    (fun error => throw error).

(** ** Orchestrator: [getNutritionFromFatSecret] (lines 252-290) *)

Definition nutrition_key (foodLabel : string) : string :=
  "fatsecret_nutrition_" +:+ trim (toLowerCase foodLabel).

Definition getNutritionFromFatSecret (foodLabel : value) : M World value :=
  try_catch
    (if negb (truthy foodLabel) then ret VNull else
     label <- lift (string_receiver foodLabel "toLowerCase") ;;
     let cacheKey := nutrition_key label in
     cachedNutrition <- getCachedResponse cacheKey ;;
     if truthy (cached_value cachedNutrition) then ret (cached_value cachedNutrition) else
     searchResults <- searchFoods label (number_of_Z 3) ;;
     none <- lift (if negb (truthy searchResults) then Ok true
                   else length_is_zero searchResults) ;;
     if (none : bool) then ret VNull else
     first <- lift (index0 searchResults) ;;
     foodId <- lift (get_prop first "food_id") ;;
     foodDetails <- getFoodDetails foodId ;;
     nutritionData <- lift (standardizeNutritionData foodDetails) ;;
     cacheResponse cacheKey (StoredJson (nutrition_value nutritionData)) 86400 ;;;
     ret (nutrition_value nutritionData))
    (fun error => ret VNull).

(** ** Autocomplete client: [autocompleteSearch] (lines 299-372) *)

(** [ToNumber]. *)
Definition toNumber (v : value) : number :=
  match v with
  | VUndefined => NaN
  | VNull => zero
  | VBool true => number_of_Z 1
  | VBool false => zero
  | VNum n => n
  | VStr s => string_toNumber js s
  | VArr _ | VObj _ => string_toNumber js (toString v)
  end.

Definition autocomplete_key (expression : string) (maxResults region : value) : string :=
  "fatsecret_autocomplete_" +:+ trim (toLowerCase expression) +:+ "_"
    +:+ toString maxResults +:+ "_" +:+ toString (js_or region (VStr "default")).

Definition autocomplete_request (accessToken expression : string)
    (maxResults region : value) : Request :=
  {| url := FATSECRET_API_URL;
     headers := bearer_headers accessToken;
     body := [("method", "foods.autocomplete.v2");
              ("expression", trim expression);
              ("max_results",
               number_toString js (math_min (toNumber maxResults) (number_of_Z 10)));
              ("format", "json")]
             ++ (if truthy region then [("region", toString region)] else []) |}.

(** A parameter with a default takes it when [undefined] is passed. *)
Definition or_default (v d : value) : value :=
  match v with
  | VUndefined => d
  | _ => v
  end.

Definition autocompleteSearch (expression maxResults region : value) : M World value :=
  let maxResults := or_default maxResults (VNum (number_of_Z 4)) in
  let region := or_default region VNull in
  try_catch
    (short <- lift (if negb (truthy expression) then Ok true
                    else match string_receiver expression "trim" with
                         | Ok s => Ok (String.length (trim s) <? 2)%nat
                         | Throw e => Throw e
                         end) ;;
     if (short : bool) then ret (VArr []) else
     expr <- lift (string_receiver expression "toLowerCase") ;;
     let cacheKey := autocomplete_key expr maxResults region in
     cachedSuggestions <- getCachedResponse cacheKey ;;
     if truthy (cached_value cachedSuggestions) then ret (cached_value cachedSuggestions) else
     accessToken <- getAccessToken ;;
     searchResponse <- fetch api_endpoint
                         (autocomplete_request accessToken expr maxResults region) ;;
     if negb (ok searchResponse)
     then throw (JsError ("Failed to get autocomplete suggestions: "
                          +:+ pretty (status searchResponse)))
     else
       responseData <- response_json searchResponse ;;
       outer <- lift (get_prop responseData "suggestions") ;;
       if negb (truthy outer) then ret (VArr []) else
       inner <- lift (get_prop outer "suggestion") ;;
       if negb (truthy inner) then ret (VArr []) else
       let suggestions := if isArray inner then inner else VArr [inner] in
       cacheResponse cacheKey (StoredJson suggestions) 900 ;;;
       ret suggestions)
    (fun error => ret (VArr [])).

End Adapter.

(** ** The callable handlers

    The handlers reach the adapter through the module object
    [fatSecretAPI]; they are stated over that interface, and
    [fatSecretAPI_module] is the adapter above. *)

Record FatSecretAPI : Type := {
  api_getNutritionFromFatSecret : value -> M World value;
  api_getFoodDetails : value -> M World value;
  api_standardizeNutritionData : value -> result value;
  api_autocompleteSearch : value -> value -> value -> M World value
}.

Definition fatSecretAPI_module (js : Builtins) : FatSecretAPI :=
  {| api_getNutritionFromFatSecret := getNutritionFromFatSecret js;
     api_getFoodDetails := getFoodDetails js;
     api_standardizeNutritionData :=
       fun d => match standardizeNutritionData js d with
                | Ok n => Ok (nutrition_value n)
                | Throw e => Throw e
                end;
     api_autocompleteSearch := autocompleteSearch js |}.

(** The double-quote character of the message templates. *)
Definition dq : string := String (ascii_of_nat 34) EmptyString.

(** [v.length] inside a template literal. *)
Definition length_text (v : value) : result string :=
  match v with
  | VUndefined =>
      Throw (JsTypeError "Cannot read properties of undefined (reading 'length')")
  | VNull =>
      Throw (JsTypeError "Cannot read properties of null (reading 'length')")
  | VArr l => Ok (pretty (Z.of_nat (length l)))
  | VStr s => Ok (pretty (Z.of_nat (String.length s)))
  | _ => Ok "undefined"
  end.

Section Handlers.

Context (js : Builtins) (fatSecretAPI : FatSecretAPI).

(** [exports.searchFatSecretNutrition]; [data] is the handler's first
    parameter. *)
Definition searchFatSecretNutrition (data : value) : M World value :=
  try_catch
    (foodName <- lift (get_prop data "foodName") ;;
     if negb (truthy foodName)
     then throw (HttpsError "invalid-argument" "Missing food name to search" None)
     else
       s <- lift (string_receiver foodName "trim") ;;
       let searchTerm := trim s in
       nutritionData <- api_getNutritionFromFatSecret fatSecretAPI (VStr searchTerm) ;;
       if negb (truthy nutritionData)
       then ret (VObj [("success", VBool false);
                       ("message", VStr ("No nutrition data found for " +:+ dq
                                         +:+ searchTerm +:+ dq));
                       ("source", VStr "FatSecret")])
       else ret (VObj [("success", VBool true);
                       ("source", VStr "FatSecret");
                       ("nutritionData", nutritionData);
                       ("message", VStr ("Found nutrition data for " +:+ dq
                                         +:+ searchTerm +:+ dq +:+ " from FatSecret"))]))
    (fun error =>
       (* the log line of the handler reads [data.foodName] again *)
       lift (get_prop data "foodName") ;;;
       throw (HttpsError "internal" "Error searching for nutrition data"
                         (Some (exn_message error)))).

(** [exports.getFatSecretFoodDetails]; [data] is [request.data]. *)
Definition getFatSecretFoodDetails (data : value) : M World value :=
  try_catch
    (foodId <- lift (get_prop data "foodId") ;;
     if negb (truthy foodId)
     then throw (HttpsError "invalid-argument" "Missing food ID" None)
     else
       foodDetails <- api_getFoodDetails fatSecretAPI foodId ;;
       if negb (truthy foodDetails)
       then ret (VObj [("success", VBool false);
                       ("message", VStr ("No food details found for ID " +:+ dq
                                         +:+ toString js foodId +:+ dq));
                       ("source", VStr "FatSecret")])
       else
         nutritionData <- lift (api_standardizeNutritionData fatSecretAPI foodDetails) ;;
         ret (VObj [("success", VBool true);
                    ("foodDetails", foodDetails);
                    ("nutritionData", nutritionData);
                    ("source", VStr "FatSecret");
                    ("message", VStr ("Found food details for ID " +:+ dq
                                      +:+ toString js foodId +:+ dq
                                      +:+ " from FatSecret"))]))
    (fun error =>
       lift (get_prop data "foodId") ;;;
       throw (HttpsError "internal" "Error getting food details"
                         (Some (exn_message error)))).

(** [exports.getAutocompleteSuggestions]; [data] is [request.data]. *)
Definition getAutocompleteSuggestions (data : value) : M World value :=
  try_catch
    (query <- lift (get_prop data "query") ;;
     if negb (truthy query)
     then throw (HttpsError "invalid-argument" "Missing search query" None)
     else
       s <- lift (string_receiver query "trim") ;;
       let searchQuery := trim s in
       m <- lift (get_prop data "maxResults") ;;
       let maxResults := js_or m (VNum (number_of_Z 4)) in
       r <- lift (get_prop data "region") ;;
       let region := js_or r VNull in
       suggestions <- api_autocompleteSearch fatSecretAPI
                        (VStr searchQuery) maxResults region ;;
       len <- lift (length_text suggestions) ;;
       ret (VObj [("success", VBool true);
                  ("suggestions", suggestions);
                  ("message", VStr ("Found " +:+ len
                                    +:+ " autocomplete suggestions for " +:+ dq
                                    +:+ searchQuery +:+ dq))]))
    (fun error =>
       lift (get_prop data "query") ;;;
       throw (HttpsError "internal" "Error getting autocomplete suggestions"
                         (Some (exn_message error)))).

End Handlers.

(** ** A concrete instance of the builtins, for evaluation

    It agrees with JavaScript on unsigned decimal integers, the only
    numerals of the sample payloads below: [parseFloat] reads the digits
    that follow the leading white space, [ToNumber] reads a trimmed string
    of digits, and an integer prints in decimal. *)

Definition digit_of (c : ascii) : option Z :=
  let n := nat_of_ascii c in
  if ((48 <=? n)%nat && (n <=? 57)%nat) then Some (Z.of_nat n - 48) else None.

Fixpoint read_digits (acc : option Z) (s : string) : option Z :=
  match s with
  | EmptyString => acc
  | String c r =>
      match digit_of c with
      | Some d => read_digits (Some (10 * default 0 acc + d)) r
      | None => acc
      end
  end.

Fixpoint all_digits (s : string) : bool :=
  match s with
  | EmptyString => true
  | String c r =>
      match digit_of c with
      | Some _ => all_digits r
      | None => false
      end
  end.

Definition integer_parseFloat (s : string) : number :=
  match read_digits None (trimStart s) with
  | Some z => number_of_Z z
  | None => NaN
  end.

Definition integer_toNumber (s : string) : number :=
  if all_digits (trim s)
  then number_of_Z (default 0 (read_digits None (trim s)))
  else NaN.

Definition integer_toString (n : number) : string :=
  match n with
  | S754_zero _ => "0"
  | S754_nan => "NaN"
  | S754_infinity false => "Infinity"
  | S754_infinity true => "-Infinity"
  | S754_finite s m e =>
      let mag := if 0 <=? e then Z.pos m * 2 ^ e else Z.pos m / 2 ^ (- e) in
      pretty (if s then - mag else mag)
  end.

Definition integer_builtins : Builtins.
Proof.
  refine {| string_parseFloat := integer_parseFloat;
            string_toNumber := integer_toNumber;
            number_toString := integer_toString;
            parseFloat_no_prefix := _ |}.
  intros s. unfold integer_parseFloat, numeric_start.
  destruct (trimStart s) as [|c r]; [reflexivity|].
  cbn [read_digits]. unfold digit_of.
  destruct ((48 <=? nat_of_ascii c)%nat && (nat_of_ascii c <=? 57)%nat);
    [discriminate | reflexivity].
Defined.

(** ** Reading a detail payload, in closed form *)

(** The serving that lines 216-223 select: the first element when
    [servings.serving] is a list, else [servings.serving] itself; none when
    either field is missing or falsy. *)
Definition selected_serving (payload : value) : option value :=
  let servings := prop payload "servings" in
  if truthy servings then
    let sv := prop servings "serving" in
    if truthy sv then
      Some match sv with
           | VArr (x :: _) => x
           | VArr [] => VUndefined
           | _ => sv
           end
    else None
  else None.

(** Source field and output key of each micronutrient (lines 233-238). *)
Definition MICRONUTRIENTS : list (string * string) :=
  [("fiber", "fiber"); ("sugar", "sugar"); ("sodium", "sodium");
   ("potassium", "potassium"); ("cholesterol", "cholesterol");
   ("saturated_fat", "saturatedFat")].


Definition add_micro (js : Builtins) (serving : value)
    (m : gmap string number) (entry : string * string) : gmap string number :=
  if truthy (prop serving (fst entry))
  then <[snd entry := parseFloat js (prop serving (fst entry))]> m
  else m.

(** The record that the function returns for a usable serving. *)
Definition standardized (js : Builtins) (payload serving : value) : Nutrition :=
  {| calories := num_or_zero (parseFloat js (prop serving "calories"));
     protein := num_or_zero (parseFloat js (prop serving "protein"));
     fat := num_or_zero (parseFloat js (prop serving "fat"));
     carbohydrates := num_or_zero (parseFloat js (prop serving "carbohydrate"));
     foodName := js_or (prop payload "food_name") (VStr "Unknown Food");
     source := "FatSecret";
     servingSize := js_or (prop serving "serving_description") (VStr "100g");
     microNutrients := fold_left (add_micro js serving) MICRONUTRIENTS ∅ |}.


(** Sample payloads. *)
Definition kale_serving : value :=
  VObj [("calories", VStr "49"); ("protein", VStr "4");
        ("carbohydrate", VStr "9"); ("fiber", VStr "3");
        ("serving_description", VStr "1 cup")].

Definition kale_detail : value :=
  VObj [("food_id", VStr "36320"); ("food_name", VStr "Kale");
        ("servings", VObj [("serving", VArr [kale_serving])])].



(** ** Reading the world, in closed form *)

(** The token that [getAccessToken] finds usable: stored under
    [TOKEN_CACHE_KEY], still held by the cache, and with [expires_at]
    after the current time. *)
Definition usable_token (w : World) : option CachedToken :=
  match cache_lookup TOKEN_CACHE_KEY w with
  | Some (StoredToken t) => if expires_at t >? clock w then Some t else None
  | _ => None
  end.

(** The client id and secret, when both are set and not empty. *)
Definition credentials (w : World) : option (string * string) :=
  match FATSECRET_CLIENT_ID w, FATSECRET_CLIENT_SECRET w with
  | Some clientId, Some clientSecret =>
      if negb (String.eqb clientId "") && negb (String.eqb clientSecret "")
      then Some (clientId, clientSecret)
      else None
  | _, _ => None
  end.

(** The world after lines 61-66 have stored the token [tokenData]. *)
Definition store_token (tokenData : TokenData) (w : World) : World :=
  cache_store TOKEN_CACHE_KEY
    (StoredToken {| token_data := tokenData;
                    expires_at := clock w + expires_in tokenData * 1000 - 60000 |})
    (expires_in tokenData) w.

(** The world after a request has been sent and answered. *)
Definition after_request (req : Request) (latency : N) (w : World) : World :=
  advance (Z.of_N latency) (record (Sent req) w).

(** The repeated field of a response envelope, [data.outer.inner];
    [undefined] when a level is missing. *)
Definition envelope (data : value) (outer inner : string) : value :=
  prop (prop data outer) inner.

(** Lines 121-129 and 350-361 on the repeated field. *)
Definition normalize (repeated : value) : value :=
  if truthy repeated
  then (if isArray repeated then repeated else VArr [repeated])
  else VArr [].


(** The JSON body that a search exchange obtains on a cache miss, when the
    token is available and the upstream answers with success. *)
Definition search_response (js : Builtins) (query : string) (maxResults : number)
    (w : World) : option value :=
  match getAccessToken (record (CacheGet (search_key query)) w) with
  | (Ok accessToken, w1) =>
      match outcome (api_endpoint w1 (length (trace w1))
                       (search_request js accessToken query maxResults)) with
      | Responded r => if ok r then json r else None
      | Rejected _ => None
      end
  | (Throw _, _) => None
  end.

(** The value of a field of a request body. *)
Definition field_of_body (k : string) (req : Request) : option string :=
  snd <$> find (fun kv => String.eqb (fst kv) k) (body req).

(** The cache key of an autocomplete call, with the defaults of the
    parameters applied. *)
Definition autocomplete_call_key (js : Builtins) (expression : string)
    (maxResults region : value) : string :=
  autocomplete_key js expression
    (or_default maxResults (VNum (number_of_Z 4))) (or_default region VNull).

(** The request of an autocomplete call, with the defaults applied. *)
Definition autocomplete_call_request (js : Builtins) (accessToken expression : string)
    (maxResults region : value) : Request :=
  autocomplete_request js accessToken expression
    (or_default maxResults (VNum (number_of_Z 4))) (or_default region VNull).


(** Events that write the cache under [key]. *)
Definition is_put (key : string) (e : Event) : bool :=
  match e with
  | CachePut k _ _ => String.eqb k key
  | _ => false
  end.

(** Events whose cache writes go to keys in [keys]. *)
Definition allowed (keys : string -> Prop) (e : Event) : Prop :=
  match e with
  | CachePut k _ _ => keys k
  | _ => True
  end.

(** Events that write no nutrition entry, whatever the label. *)
Definition no_nutrition_put (e : Event) : Prop :=
  forall label, is_put (nutrition_key label) e = false.

(** Every run of [m] extends the trace by events that satisfy [P]. *)
Definition emits {A} (P : Event -> Prop) (m : M World A) : Prop :=
  forall w r w', m w = (r, w') ->
    exists delta, trace w' = delta ++ trace w /\ Forall P delta.

(** Every run of [m] extends the trace by events that satisfy [P], unless
    it returns a value that satisfies [good]. *)
Definition emits_unless {A} (P : Event -> Prop) (good : A -> Prop)
    (m : M World A) : Prop :=
  forall w r w', m w = (r, w') ->
    exists delta,
      trace w' = delta ++ trace w
      /\ ((exists a, r = Ok a /\ good a) \/ Forall P delta).

(** The error classes of the specification, as the code raises them: both
    are plain [Error] objects, told apart by their message. *)
Definition ConfigurationError (e : exn) : Prop :=
  e = JsError "FatSecret API credentials not configured".

Definition UpstreamError (e : exn) : Prop :=
  exists status : Z,
    (status < 200 \/ 299 < status)
    /\ e = JsError ("Failed to get FatSecret token: " +:+ pretty status).

(** Sample worlds. *)
Definition sample_token : TokenData :=
  {| access_token := "tok-1"; expires_in := 3600 |}.

Definition unreachable {A} : Reply A :=
  {| latency := 30%N; outcome := Rejected "network unreachable" |}.

Definition answer {A} (code : Z) (a : option A) : Reply A :=
  {| latency := 120%N;
     outcome := Responded {| status := code; text := ""; json := a |} |}.

(** Empty cache, credentials set, the token endpoint grants
    [sample_token], the API endpoint is unreachable. *)
Definition cold_world : World :=
  {| cache := ∅;
     clock := 1700000000000;
     FATSECRET_CLIENT_ID := Some "client";
     FATSECRET_CLIENT_SECRET := Some "secret";
     trace := [];
     token_endpoint := fun _ _ => answer 200 (Some sample_token);
     api_endpoint := fun _ _ => unreachable |}.

(** As [cold_world], but the token endpoint answers 401. *)
Definition refused_world : World :=
  {| cache := ∅;
     clock := 1700000000000;
     FATSECRET_CLIENT_ID := Some "client";
     FATSECRET_CLIENT_SECRET := Some "secret";
     trace := [];
     token_endpoint := fun _ _ => answer 401 None;
     api_endpoint := fun _ _ => unreachable |}.

(** No credentials, empty cache. *)
Definition unconfigured_world : World :=
  {| cache := ∅;
     clock := 1700000000000;
     FATSECRET_CLIENT_ID := None;
     FATSECRET_CLIENT_SECRET := None;
     trace := [];
     token_endpoint := fun _ _ => unreachable;
     api_endpoint := fun _ _ => unreachable |}.

(** No credentials, but the cache holds a token that has not expired. *)
Definition unconfigured_cached_world : World :=
  {| cache :=
       {[ TOKEN_CACHE_KEY :=
            {| stored := StoredToken {| token_data := sample_token;
                                        expires_at := 1700003540000 |};
               fresh_until := 1700003600000 |} ]};
     clock := 1700000000000;
     FATSECRET_CLIENT_ID := None;
     FATSECRET_CLIENT_SECRET := None;
     trace := [];
     token_endpoint := fun _ _ => unreachable;
     api_endpoint := fun _ _ => unreachable |}.

(** A sample upstream API: one food for a search, the kale detail for a
    detail request, two suggestions for an autocomplete. *)
Definition kale_summary : value :=
  VObj [("food_id", VStr "36320"); ("food_name", VStr "Kale")].

Definition sample_search_body : value :=
  VObj [("foods", VObj [("food", kale_summary)])].

Definition sample_suggestions : list value := [VStr "kale"; VStr "kale chips"].

Definition sample_autocomplete_body : value :=
  VObj [("suggestions", VObj [("suggestion", VArr sample_suggestions)])].

Definition sample_api (n : nat) (req : Request) : Reply value :=
  match field_of_body "method" req with
  | Some m =>
      if String.eqb m "foods.search" then answer 200 (Some sample_search_body)
      else if String.eqb m "food.get.v2"
           then answer 200 (Some (VObj [("food", kale_detail)]))
      else if String.eqb m "foods.autocomplete.v2"
           then answer 200 (Some sample_autocomplete_body)
      else answer 404 None
  | None => answer 400 None
  end.

(** Empty cache, credentials set, both endpoints answer. *)
Definition online_world : World :=
  {| cache := ∅;
     clock := 1700000000000;
     FATSECRET_CLIENT_ID := Some "client";
     FATSECRET_CLIENT_SECRET := Some "secret";
     trace := [];
     token_endpoint := fun _ _ => answer 200 (Some sample_token);
     api_endpoint := sample_api |}.

(** As [online_world], but a search is answered with an empty list in the
    repeated field. *)
Definition empty_list_world : World :=
  {| cache := ∅;
     clock := 1700000000000;
     FATSECRET_CLIENT_ID := Some "client";
     FATSECRET_CLIENT_SECRET := Some "secret";
     trace := [];
     token_endpoint := fun _ _ => answer 200 (Some sample_token);
     api_endpoint :=
       fun _ _ => answer 200 (Some (VObj [("foods", VObj [("food", VArr [])])])) |}.

(** ** Further closed forms and samples *)

(** The JSON body that a detail exchange obtains on a cache miss, when the
    token is available and the upstream answers with success. *)
Definition details_response (js : Builtins) (foodId : value) (w : World) : option value :=
  match getAccessToken (record (CacheGet (food_key js foodId)) w) with
  | (Ok accessToken, w1) =>
      match outcome (api_endpoint w1 (length (trace w1))
                       (details_request js accessToken foodId)) with
      | Responded r => if ok r then json r else None
      | Rejected _ => None
      end
  | (Throw _, _) => None
  end.

(** The bound of [Math.min(maxResults, 10)]. *)
Definition ten : number := number_of_Z 10.

(** The keys under which the adapter writes. *)
Definition adapter_key (js : Builtins) (k : string) : Prop :=
  k = TOKEN_CACHE_KEY
  \/ (exists query, k = search_key query)
  \/ (exists foodId, k = food_key js foodId)
  \/ (exists label, k = nutrition_key label).

(** A detail payload whose [servings.serving] is [sv], beside other
    fields. *)
Definition detail_with_serving (others : list (string * value)) (sv : value) : value :=
  VObj (("servings", VObj [("serving", sv)]) :: others).

(** Credentials and token as in [online_world]; every API request is
    answered with status 500. *)
Definition failing_api_world : World :=
  {| cache := ∅;
     clock := 1700000000000;
     FATSECRET_CLIENT_ID := Some "client";
     FATSECRET_CLIENT_SECRET := Some "secret";
     trace := [];
     token_endpoint := fun _ _ => answer 200 (Some sample_token);
     api_endpoint := fun _ _ => answer 500 None |}.

(** As [online_world], but the body of every API answer is the empty
    object. *)
Definition empty_body_world : World :=
  {| cache := ∅;
     clock := 1700000000000;
     FATSECRET_CLIENT_ID := Some "client";
     FATSECRET_CLIENT_SECRET := Some "secret";
     trace := [];
     token_endpoint := fun _ _ => answer 200 (Some sample_token);
     api_endpoint := fun _ _ => answer 200 (Some (VObj [])) |}.

(** ** The domain of the string model, and further samples *)







(** * Properties *)

(** ** The monad *)

Lemma bind_ok {S A B} (m : M S A) (k : A -> M S B) s a s' :
  m s = (Ok a, s') -> bind m k s = k a s'.
Proof. intros H. unfold bind. rewrite H. reflexivity. Qed.

Lemma bind_throw {S A B} (m : M S A) (k : A -> M S B) s e s' :
  m s = (Throw e, s') -> bind m k s = (Throw e, s').
Proof. intros H. unfold bind. rewrite H. reflexivity. Qed.



(** [catch (error) { throw error }] changes nothing. *)
Lemma try_catch_rethrow {S A} (m : M S A) s :
  try_catch m (fun e => throw e) s = m s.
Proof. unfold try_catch, throw. destruct (m s) as [[a|e] s']; reflexivity. Qed.

(** ** Property access *)

Lemma get_prop_prop v k : nullish v = false -> get_prop v k = Ok (prop v k).
Proof. unfold prop. destruct v; simpl; intros H; try discriminate H; reflexivity. Qed.

Lemma truthy_not_nullish v : truthy v = true -> nullish v = false.
Proof. destruct v; simpl; intros H; try discriminate H; reflexivity. Qed.

Lemma num_or_zero_cases n : num_or_zero n = zero \/ num_truthy (num_or_zero n) = true.
Proof. unfold num_or_zero. destruct (num_truthy n) eqn:E; [right; exact E | left; reflexivity]. Qed.


Section Properties.

Context (js : Builtins).

(** ** The normalizer *)

Lemma parseFloat_undefined : parseFloat js VUndefined = NaN.
Proof. unfold parseFloat. apply parseFloat_no_prefix. reflexivity. Qed.

Lemma copy_micro_run serving src out n :
  nullish serving = false ->
  copy_micro js serving src out n
  = (Ok tt, if truthy (prop serving src)
            then set_micro out (parseFloat js (prop serving src)) n else n).
Proof.
  intros Hs. unfold copy_micro, bind, lift. rewrite (get_prop_prop _ _ Hs).
  destruct (truthy (prop serving src)); reflexivity.
Qed.

Lemma selected_serving_payload payload serving :
  selected_serving payload = Some serving -> nullish payload = false.
Proof. destruct payload; simpl; intros H; try discriminate H; reflexivity. Qed.

(** With a usable serving the [try] block runs to its end. *)
Lemma standardize_serving payload serving :
  selected_serving payload = Some serving ->
  nullish serving = false ->
  standardizeNutritionData js payload = Ok (standardized js payload serving).
Proof.
  intros Hsel Hs. pose proof (selected_serving_payload _ _ Hsel) as Hp.
  unfold standardizeNutritionData. rewrite (get_prop_prop _ _ Hp). f_equal.
  unfold selected_serving in Hsel.
  destruct (truthy (prop payload "servings")) eqn:Hsv; [|discriminate Hsel].
  destruct (truthy (prop (prop payload "servings") "serving")) eqn:Hone;
    [|discriminate Hsel].
  unfold try_catch, standardize_try.
  rewrite (bind_ok _ _ _ (prop payload "servings") (default_nutrition (prop payload "food_name")))
    by (unfold lift; rewrite (get_prop_prop _ _ Hp); reflexivity).
  rewrite Hsv. cbn [negb].
  rewrite (bind_ok _ _ _ (prop (prop payload "servings") "serving")
             (default_nutrition (prop payload "food_name")))
    by (unfold lift; rewrite (get_prop_prop _ _ (truthy_not_nullish _ Hsv)); reflexivity).
  rewrite Hone. cbn [negb].
  rewrite (bind_ok _ _ _ serving (default_nutrition (prop payload "food_name"))).
  2:{ unfold lift. f_equal.
      destruct (prop (prop payload "servings") "serving") as [| |b|x|s|[|y l]|fs];
        simpl in *; congruence. }
  unfold bind at 1, lift at 1. rewrite (get_prop_prop _ _ Hs).
  unfold bind at 1, modify at 1.
  unfold bind at 1, lift at 1. rewrite (get_prop_prop _ _ Hs).
  unfold bind at 1, modify at 1.
  unfold bind at 1, lift at 1. rewrite (get_prop_prop _ _ Hs).
  unfold bind at 1, modify at 1.
  unfold bind at 1, lift at 1. rewrite (get_prop_prop _ _ Hs).
  unfold bind at 1, modify at 1.
  unfold bind at 1, lift at 1. rewrite (get_prop_prop _ _ Hs).
  unfold bind at 1, modify at 1.
  repeat (unfold bind at 1; rewrite (copy_micro_run _ _ _ _ Hs)).
  rewrite (copy_micro_run _ _ _ _ Hs).
  unfold standardized, MICRONUTRIENTS, add_micro. cbn [fold_left fst snd].
  destruct (truthy (prop serving "fiber")), (truthy (prop serving "sugar")),
    (truthy (prop serving "sodium")), (truthy (prop serving "potassium")),
    (truthy (prop serving "cholesterol")), (truthy (prop serving "saturated_fat"));
    reflexivity.
Qed.

(** Without a usable serving, nothing has been assigned when the function
    returns: either it returns before the assignments, or reading the first
    nutrient of [undefined] or [null] raises inside the [try] block. *)
Lemma standardize_no_serving payload :
  nullish payload = false ->
  match selected_serving payload with
  | Some serving => nullish serving = true
  | None => True
  end ->
  standardizeNutritionData js payload
  = Ok (default_nutrition (prop payload "food_name")).
Proof.
  intros Hp Hsel.
  unfold standardizeNutritionData. rewrite (get_prop_prop _ _ Hp). f_equal.
  unfold selected_serving in Hsel.
  unfold try_catch, standardize_try.
  rewrite (bind_ok _ _ _ (prop payload "servings") (default_nutrition (prop payload "food_name")))
    by (unfold lift; rewrite (get_prop_prop _ _ Hp); reflexivity).
  destruct (truthy (prop payload "servings")) eqn:Hsv; [|reflexivity].
  cbn [negb].
  rewrite (bind_ok _ _ _ (prop (prop payload "servings") "serving")
             (default_nutrition (prop payload "food_name")))
    by (unfold lift; rewrite (get_prop_prop _ _ (truthy_not_nullish _ Hsv)); reflexivity).
  destruct (truthy (prop (prop payload "servings") "serving")) eqn:Hone; [|reflexivity].
  cbn [negb].
  destruct (prop (prop payload "servings") "serving") as [| |b|x|s|[|y l]|fs];
    simpl in Hsel, Hone; try discriminate; try reflexivity.
  destruct y; simpl in Hsel; try discriminate; reflexivity.
Qed.







(** ** The autocomplete guard *)

(** C9: for every expression that is absent or whose trimmed length is
    below 2, [autocompleteSearch] returns the empty list at once: the world,
    and with it the trace of cache lookups and upstream requests, is
    unchanged. *)
Theorem autocomplete_short_expression expression maxResults region w :
  expression = VUndefined \/ expression = VNull
  \/ (exists s, expression = VStr s /\ (String.length (trim s) < 2)%nat) ->
  autocompleteSearch js expression maxResults region w = (Ok (VArr []), w).
Proof.
  intros [-> | [-> | [s [-> Hlen]]]]; try reflexivity.
  unfold autocompleteSearch, try_catch, bind, lift. cbn [string_receiver].
  apply Nat.ltb_lt in Hlen. rewrite Hlen.
  destruct (negb (truthy (VStr s))); reflexivity.
Qed.

(** ** The token manager *)

Lemma getAccessToken_cached w t :
  usable_token w = Some t ->
  getAccessToken w
  = (Ok (access_token (token_data t)), record (CacheGet TOKEN_CACHE_KEY) w).
Proof.
  unfold usable_token. intros H.
  unfold getAccessToken. rewrite try_catch_rethrow.
  unfold bind, getCachedResponse, Date_now. cbn [clock record].
  destruct (cache_lookup TOKEN_CACHE_KEY w) as [[t'|v]|]; try discriminate H.
  destruct (expires_at t' >? clock w); [|discriminate H].
  injection H as ->. reflexivity.
Qed.

Lemma getAccessToken_refresh w :
  usable_token w = None ->
  getAccessToken w = request_token (record (CacheGet TOKEN_CACHE_KEY) w).
Proof.
  unfold usable_token. intros H.
  unfold getAccessToken. rewrite try_catch_rethrow.
  unfold bind, getCachedResponse, Date_now. cbn [clock record].
  destruct (cache_lookup TOKEN_CACHE_KEY w) as [[t'|v]|]; try reflexivity.
  destruct (expires_at t' >? clock w); [discriminate H | reflexivity].
Qed.


Lemma credentials_unset w :
  credentials w = None ->
  negb (env_truthy (FATSECRET_CLIENT_ID w))
  || negb (env_truthy (FATSECRET_CLIENT_SECRET w)) = true.
Proof.
  unfold credentials, env_truthy.
  destruct (FATSECRET_CLIENT_ID w) as [a|], (FATSECRET_CLIENT_SECRET w) as [b|];
    try reflexivity.
  - destruct (String.eqb a ""), (String.eqb b ""); try reflexivity. discriminate.
  - destruct (String.eqb a ""); reflexivity.
Qed.

Lemma credentials_set w clientId clientSecret :
  credentials w = Some (clientId, clientSecret) ->
  FATSECRET_CLIENT_ID w = Some clientId
  /\ FATSECRET_CLIENT_SECRET w = Some clientSecret
  /\ negb (env_truthy (FATSECRET_CLIENT_ID w))
     || negb (env_truthy (FATSECRET_CLIENT_SECRET w)) = false.
Proof.
  unfold credentials, env_truthy.
  destruct (FATSECRET_CLIENT_ID w) as [a|], (FATSECRET_CLIENT_SECRET w) as [b|];
    try discriminate.
  destruct (String.eqb a ""), (String.eqb b ""); try discriminate.
  intros H. injection H as -> ->. repeat split.
Qed.

Lemma request_token_unconfigured w :
  credentials w = None ->
  request_token w
  = (Throw (JsError "FatSecret API credentials not configured"), w).
Proof.
  intros H. unfold request_token, bind, read.
  rewrite (credentials_unset _ H). reflexivity.
Qed.

(** What the grant exchange does with each answer of the token endpoint. *)
Lemma request_token_answered w clientId clientSecret reply :
  credentials w = Some (clientId, clientSecret) ->
  token_endpoint w (length (trace w)) (token_request clientId clientSecret) = reply ->
  let w' := after_request (token_request clientId clientSecret) (latency reply) w in
  request_token w
  = match outcome reply with
    | Rejected m => (Throw (FetchError m), w')
    | Responded r =>
        if ok r then
          match json r with
          | Some tokenData => (Ok (access_token tokenData), store_token tokenData w')
          | None => (Throw (JsSyntaxError "Unexpected token in JSON"), w')
          end
        else (Throw (JsError ("Failed to get FatSecret token: " +:+ pretty (status r))), w')
    end.
Proof.
  intros Hc Hr. destruct (credentials_set _ _ _ Hc) as (Hid & Hsec & Hgo).
  unfold request_token, bind at 1 2, read. rewrite Hgo, Hid, Hsec. cbn [env_string].
  unfold bind at 1, fetch. rewrite Hr.
  destruct reply as [l [m|r]]; cbn [outcome latency]; [reflexivity|].
  unfold after_request. destruct (ok r); cbn [negb]; [|reflexivity].
  unfold bind at 1, response_json. destruct (json r) as [td|]; [|reflexivity].
  reflexivity.
Qed.

Lemma not_ok_status {A} (r : Response A) :
  ok r = false -> status r < 200 \/ 299 < status r.
Proof. unfold ok. intros H. apply andb_false_iff in H as [H|H]; lia. Qed.

(** C4, amended: when the cache holds no usable token, a call to
    [getAccessToken] with the client id or the client secret unset fails
    with a [ConfigurationError] and sends nothing, and a call whose request
    to the token endpoint is answered with a non-success status fails with
    an [UpstreamError]. *)
Theorem token_failures w :
  usable_token w = None ->
  (credentials w = None ->
   exists e,
     getAccessToken w = (Throw e, record (CacheGet TOKEN_CACHE_KEY) w)
     /\ ConfigurationError e)
  /\ (forall clientId clientSecret l r,
      credentials w = Some (clientId, clientSecret) ->
      token_endpoint w (S (length (trace w))) (token_request clientId clientSecret)
      = {| latency := l; outcome := Responded r |} ->
      ok r = false ->
      exists e,
        getAccessToken w
        = (Throw e, after_request (token_request clientId clientSecret) l
                      (record (CacheGet TOKEN_CACHE_KEY) w))
        /\ UpstreamError e).
Proof.
  intros Hnone. rewrite (getAccessToken_refresh _ Hnone). split.
  - intros Hc. eexists. split; [|reflexivity].
    apply request_token_unconfigured. exact Hc.
  - intros clientId clientSecret l r Hc Hr Hok.
    rewrite (request_token_answered (record (CacheGet TOKEN_CACHE_KEY) w)
               clientId clientSecret _ Hc Hr).
    cbn [outcome latency]. rewrite Hok.
    eexists. split; [reflexivity|].
    exists (status r). split; [apply not_ok_status; exact Hok | reflexivity].
Qed.

Lemma usable_token_entry w t f :
  cache w !! TOKEN_CACHE_KEY = Some {| stored := StoredToken t; fresh_until := f |} ->
  clock w <= f -> clock w < expires_at t ->
  usable_token w = Some t.
Proof.
  intros H Hf He. unfold usable_token, cache_lookup. rewrite H. cbn [fresh_until stored].
  destruct (Z.leb_spec (clock w) f); [|lia].
  destruct (Z.gtb_spec (expires_at t) (clock w)); [reflexivity | lia].
Qed.

Lemma usable_token_expired w t f :
  cache w !! TOKEN_CACHE_KEY = Some {| stored := StoredToken t; fresh_until := f |} ->
  expires_at t <= clock w ->
  usable_token w = None.
Proof.
  intros H He. unfold usable_token, cache_lookup. rewrite H. cbn [fresh_until stored].
  destruct (clock w <=? f); [|reflexivity].
  destruct (Z.gtb_spec (expires_at t) (clock w)); [lia | reflexivity].
Qed.

(** With credentials, the grant exchange always sends its request. *)
Lemma request_token_sends w clientId clientSecret :
  credentials w = Some (clientId, clientSecret) ->
  exists res w' later,
    request_token w = (res, w')
    /\ trace w' = later ++ Sent (token_request clientId clientSecret) :: trace w.
Proof.
  intros Hc. rewrite (request_token_answered _ clientId clientSecret _ Hc eq_refl).
  destruct (token_endpoint w _ _) as [l [m|r]]; cbn [outcome latency].
  - eexists _, _, []. split; reflexivity.
  - destruct (ok r); [destruct (json r) as [td|]|].
    + eexists _, _, [_]. split; reflexivity.
    + eexists _, _, []. split; reflexivity.
    + eexists _, _, []. split; reflexivity.
Qed.

(** C5: a grant stores the token with
    [expires_at = now + expires_in * 1000 - 60000] milliseconds; a later
    call in any world that still holds the entry and whose clock is before
    [expires_at] returns the cached token and sends no request, its only
    event being the cache lookup; a call at or after [expires_at] sends a
    new grant request.  With [expires_in = 3600], a call less than 3540
    seconds after the grant sends nothing and a call from 3540 seconds on
    sends a grant request. *)
Theorem token_cached_until_expiry w clientId clientSecret l r tokenData :
  usable_token w = None ->
  credentials w = Some (clientId, clientSecret) ->
  token_endpoint w (S (length (trace w))) (token_request clientId clientSecret)
  = {| latency := l; outcome := Responded r |} ->
  ok r = true ->
  json r = Some tokenData ->
  exists w1,
    getAccessToken w = (Ok (access_token tokenData), w1)
    /\ clock w1 = clock w + Z.of_N l
    /\ cache w1 !! TOKEN_CACHE_KEY
       = Some {| stored :=
                   StoredToken
                     {| token_data := tokenData;
                        expires_at := clock w1 + expires_in tokenData * 1000 - 60000 |};
                 fresh_until := clock w1 + expires_in tokenData * 1000 |}
    /\ (forall w2,
        cache w2 !! TOKEN_CACHE_KEY = cache w1 !! TOKEN_CACHE_KEY ->
        clock w2 < clock w1 + expires_in tokenData * 1000 - 60000 ->
        getAccessToken w2
        = (Ok (access_token tokenData), record (CacheGet TOKEN_CACHE_KEY) w2))
    /\ (forall w2,
        cache w2 !! TOKEN_CACHE_KEY = cache w1 !! TOKEN_CACHE_KEY ->
        clock w1 + expires_in tokenData * 1000 - 60000 <= clock w2 ->
        credentials w2 = Some (clientId, clientSecret) ->
        exists res w3 later,
          getAccessToken w2 = (res, w3)
          /\ trace w3
             = later ++ Sent (token_request clientId clientSecret)
                 :: CacheGet TOKEN_CACHE_KEY :: trace w2)
    /\ (expires_in tokenData = 3600 ->
        forall d,
          (0 <= d < 3540000 ->
           getAccessToken (advance d w1)
           = (Ok (access_token tokenData),
              record (CacheGet TOKEN_CACHE_KEY) (advance d w1)))
          /\ (3540000 <= d ->
              exists res w3 later,
                getAccessToken (advance d w1) = (res, w3)
                /\ trace w3
                   = later ++ Sent (token_request clientId clientSecret)
                       :: CacheGet TOKEN_CACHE_KEY :: trace w1)).
Proof.
  intros Hnone Hc Hr Hok Hjson.
  set (w0 := record (CacheGet TOKEN_CACHE_KEY) w).
  set (wr := after_request (token_request clientId clientSecret) l w0).
  exists (store_token tokenData wr).
  assert (getAccessToken w = (Ok (access_token tokenData), store_token tokenData wr)) as Hrun.
  { rewrite (getAccessToken_refresh _ Hnone).
    rewrite (request_token_answered (record (CacheGet TOKEN_CACHE_KEY) w)
               clientId clientSecret _ Hc Hr).
    cbn [outcome latency]. rewrite Hok, Hjson. reflexivity. }
  assert (cache (store_token tokenData wr) !! TOKEN_CACHE_KEY
          = Some {| stored :=
                      StoredToken
                        {| token_data := tokenData;
                           expires_at := clock (store_token tokenData wr)
                                         + expires_in tokenData * 1000 - 60000 |};
                    fresh_until := clock (store_token tokenData wr)
                                   + expires_in tokenData * 1000 |}) as Hentry.
  { unfold store_token. cbn [cache clock record set_cache]. apply lookup_insert_eq. }
  assert (forall w2,
            cache w2 !! TOKEN_CACHE_KEY = cache (store_token tokenData wr) !! TOKEN_CACHE_KEY ->
            clock w2 < clock (store_token tokenData wr) + expires_in tokenData * 1000 - 60000 ->
            getAccessToken w2
            = (Ok (access_token tokenData), record (CacheGet TOKEN_CACHE_KEY) w2)) as Hhit.
  { intros w2 Hsame Hbefore. rewrite Hentry in Hsame.
    rewrite (getAccessToken_cached w2 _ (usable_token_entry _ _ _ Hsame ltac:(lia) Hbefore)).
    reflexivity. }
  assert (forall w2,
            cache w2 !! TOKEN_CACHE_KEY = cache (store_token tokenData wr) !! TOKEN_CACHE_KEY ->
            clock (store_token tokenData wr) + expires_in tokenData * 1000 - 60000 <= clock w2 ->
            credentials w2 = Some (clientId, clientSecret) ->
            exists res w3 later,
              getAccessToken w2 = (res, w3)
              /\ trace w3
                 = later ++ Sent (token_request clientId clientSecret)
                     :: CacheGet TOKEN_CACHE_KEY :: trace w2) as Hmiss.
  { intros w2 Hsame Hafter Hc2. rewrite Hentry in Hsame.
    rewrite (getAccessToken_refresh w2 (usable_token_expired _ _ _ Hsame Hafter)).
    apply (request_token_sends (record (CacheGet TOKEN_CACHE_KEY) w2)). exact Hc2. }
  split; [exact Hrun|]. split; [reflexivity|]. split; [exact Hentry|].
  split; [exact Hhit|]. split; [exact Hmiss|].
  intros H3600 d. split.
  - intros Hd. apply Hhit; [reflexivity|]. cbn [clock advance]. lia.
  - intros Hd. apply (Hmiss (advance d (store_token tokenData wr))); [reflexivity| |exact Hc].
    cbn [clock advance]. lia.
Qed.

(** ** Traces: which events a computation adds *)

Lemma trace_snoc (delta : list Event) e t : delta ++ e :: t = (delta ++ [e]) ++ t.
Proof. rewrite <- app_assoc. reflexivity. Qed.

Lemma emits_weaken {A} (P Q : Event -> Prop) (m : M World A) :
  (forall e, P e -> Q e) -> emits P m -> emits Q m.
Proof.
  intros HPQ Hm w r w' Hrun. destruct (Hm _ _ _ Hrun) as (delta & Ht & HP).
  exists delta. split; [exact Ht|]. eapply Forall_impl; eauto.
Qed.

Lemma emits_ret {A} P (a : A) : emits P (ret a).
Proof. intros w r w' H. injection H as <- <-. exists []. split; [reflexivity | constructor]. Qed.

Lemma emits_throw {A} P e : emits P (@throw World A e).
Proof. intros w r w' H. injection H as <- <-. exists []. split; [reflexivity | constructor]. Qed.

Lemma emits_lift {A} P (x : result A) : emits P (lift x).
Proof. intros w r w' H. injection H as <- <-. exists []. split; [reflexivity | constructor]. Qed.

Lemma emits_read {A} P (f : World -> A) : emits P (read f).
Proof. intros w r w' H. injection H as <- <-. exists []. split; [reflexivity | constructor]. Qed.

Lemma emits_Date_now P : emits P Date_now.
Proof. intros w r w' H. injection H as <- <-. exists []. split; [reflexivity | constructor]. Qed.

Lemma emits_bind {A B} P (m : M World A) (k : A -> M World B) :
  emits P m -> (forall a, emits P (k a)) -> emits P (bind m k).
Proof.
  intros Hm Hk w r w' Hrun. unfold bind in Hrun.
  destruct (m w) as [[a|e] w1] eqn:E; destruct (Hm _ _ _ E) as (d1 & Ht1 & HP1).
  - destruct (Hk a _ _ _ Hrun) as (d2 & Ht2 & HP2).
    exists (d2 ++ d1). split; [rewrite Ht2, Ht1; apply app_assoc|].
    apply Forall_app. split; assumption.
  - injection Hrun as <- <-. exists d1. split; assumption.
Qed.

Lemma emits_try_catch {A} P (m : M World A) (h : exn -> M World A) :
  emits P m -> (forall e, emits P (h e)) -> emits P (try_catch m h).
Proof.
  intros Hm Hh w r w' Hrun. unfold try_catch in Hrun.
  destruct (m w) as [[a|e] w1] eqn:E; destruct (Hm _ _ _ E) as (d1 & Ht1 & HP1).
  - injection Hrun as <- <-. exists d1. split; assumption.
  - destruct (Hh e _ _ _ Hrun) as (d2 & Ht2 & HP2).
    exists (d2 ++ d1). split; [rewrite Ht2, Ht1; apply app_assoc|].
    apply Forall_app. split; assumption.
Qed.

Lemma emits_getCachedResponse P key :
  P (CacheGet key) -> emits P (getCachedResponse key).
Proof.
  intros HP w r w' H. injection H as <- <-. exists [CacheGet key].
  split; [reflexivity | repeat constructor; exact HP].
Qed.

Lemma emits_cacheResponse P key v ttl :
  P (CachePut key v ttl) -> emits P (cacheResponse key v ttl).
Proof.
  intros HP w r w' H. injection H as <- <-. exists [CachePut key v ttl].
  split; [reflexivity | repeat constructor; exact HP].
Qed.

Lemma emits_fetch {A} P (endpoint : World -> nat -> Request -> Reply A) req :
  P (Sent req) -> emits P (fetch endpoint req).
Proof.
  intros HP w r w' H. unfold fetch in H.
  exists [Sent req]. split; [|repeat constructor; exact HP].
  destruct (outcome _); injection H as <- <-; reflexivity.
Qed.

Lemma emits_response_json {A} P (r : Response A) : emits P (response_json r).
Proof.
  unfold response_json. destruct (json r); [apply emits_ret | apply emits_throw].
Qed.

Ltac emits_step :=
  first
    [ apply emits_ret | apply emits_throw | apply emits_lift | apply emits_read
    | apply emits_Date_now | apply emits_response_json
    | apply emits_getCachedResponse; exact I
    | apply emits_fetch; exact I
    | apply emits_cacheResponse; cbn [allowed]; auto
    | apply emits_try_catch; [|intros ?]
    | apply emits_bind; [|intros ?]
    | match goal with
      | |- emits _ (if ?c then _ else _) => destruct c
      | |- emits _ (match ?x with _ => _ end) => destruct x
      end ].

Lemma request_token_emits : emits (allowed (eq TOKEN_CACHE_KEY)) request_token.
Proof. unfold request_token. repeat emits_step. Qed.

Lemma getAccessToken_emits : emits (allowed (eq TOKEN_CACHE_KEY)) getAccessToken.
Proof.
  unfold getAccessToken. repeat emits_step; apply request_token_emits.
Qed.

Lemma getAccessToken_emits_among (keys : string -> Prop) :
  keys TOKEN_CACHE_KEY -> emits (allowed keys) getAccessToken.
Proof.
  intros Hk. apply (emits_weaken (allowed (eq TOKEN_CACHE_KEY))); [|apply getAccessToken_emits].
  intros [k|k v ttl|req]; cbn [allowed]; try exact (fun x => x). intros <-. exact Hk.
Qed.

Lemma searchFoods_emits query maxResults :
  emits (allowed (fun k => k = TOKEN_CACHE_KEY \/ k = search_key query))
        (searchFoods js query maxResults).
Proof.
  unfold searchFoods. cbv zeta.
  repeat first [ apply getAccessToken_emits_among; left; reflexivity | emits_step ].
Qed.

Lemma getFoodDetails_emits foodId :
  emits (allowed (fun k => k = TOKEN_CACHE_KEY \/ k = food_key js foodId))
        (getFoodDetails js foodId).
Proof.
  unfold getFoodDetails. cbv zeta.
  repeat first [ apply getAccessToken_emits_among; left; reflexivity | emits_step ].
Qed.

(** ** The search client *)

Lemma prop_nullish v k : nullish v = true -> prop v k = VUndefined.
Proof. destruct v; simpl; intros H; try discriminate H; reflexivity. Qed.

Lemma prop_falsy v k : truthy v = false -> prop v k = VUndefined.
Proof. destruct v; simpl; intros H; try discriminate H; reflexivity. Qed.

Lemma searchFoods_cached query maxResults w :
  truthy (cached_value (cache_lookup (search_key query) w)) = true ->
  searchFoods js query maxResults w
  = (Ok (cached_value (cache_lookup (search_key query) w)),
     record (CacheGet (search_key query)) w).
Proof.
  intros Hhit. unfold searchFoods, try_catch, bind at 1, getCachedResponse.
  cbv zeta. rewrite Hhit. reflexivity.
Qed.

Lemma searchFoods_no_token query maxResults w e w1 :
  truthy (cached_value (cache_lookup (search_key query) w)) = false ->
  getAccessToken (record (CacheGet (search_key query)) w) = (Throw e, w1) ->
  searchFoods js query maxResults w = (Ok (VArr []), w1).
Proof.
  intros Hmiss Htok. unfold searchFoods, try_catch, bind at 1, getCachedResponse.
  cbv zeta. rewrite Hmiss. rewrite (bind_throw _ _ _ _ _ Htok). reflexivity.
Qed.

(** What the search does with each answer of the upstream, on a cache miss
    and with a token. *)
Lemma searchFoods_answered query maxResults w accessToken w1 reply :
  truthy (cached_value (cache_lookup (search_key query) w)) = false ->
  getAccessToken (record (CacheGet (search_key query)) w) = (Ok accessToken, w1) ->
  api_endpoint w1 (length (trace w1)) (search_request js accessToken query maxResults)
  = reply ->
  let w2 := after_request (search_request js accessToken query maxResults)
              (latency reply) w1 in
  searchFoods js query maxResults w
  = match outcome reply with
    | Rejected _ => (Ok (VArr []), w2)
    | Responded r =>
        if ok r then
          match json r with
          | Some data =>
              let repeated := envelope data "foods" "food" in
              if truthy repeated
              then (Ok (normalize repeated),
                    cache_store (search_key query) (StoredJson (normalize repeated))
                      86400 w2)
              else (Ok (VArr []), w2)
          | None => (Ok (VArr []), w2)
          end
        else (Ok (VArr []), w2)
    end.
Proof.
  intros Hmiss Htok Hr. unfold searchFoods, try_catch, bind at 1, getCachedResponse.
  cbv zeta. rewrite Hmiss. rewrite (bind_ok _ _ _ _ _ Htok).
  unfold bind at 1, fetch. rewrite Hr.
  destruct reply as [l [m|r]]; cbn [outcome latency]; [reflexivity|].
  fold (after_request (search_request js accessToken query maxResults) l w1).
  destruct (ok r); cbn [negb]; [|reflexivity].
  unfold bind at 1, response_json. destruct (json r) as [data|]; [|reflexivity].
  unfold ret at 1. unfold envelope, normalize.
  destruct (nullish data) eqn:Hd.
  { rewrite (prop_nullish _ _ Hd). destruct data; try discriminate Hd; reflexivity. }
  unfold bind at 1, lift at 1. rewrite (get_prop_prop _ _ Hd).
  destruct (truthy (prop data "foods")) eqn:Hf; cbn [negb].
  2:{ rewrite (prop_falsy _ "food" Hf). reflexivity. }
  unfold bind at 1, lift at 1. rewrite (get_prop_prop _ _ (truthy_not_nullish _ Hf)).
  destruct (truthy (prop (prop data "foods") "food")); reflexivity.
Qed.




Lemma token_key_not_search_key query e :
  allowed (eq TOKEN_CACHE_KEY) e -> is_put (search_key query) e = false.
Proof. destruct e as [k|k v ttl|req]; cbn; try reflexivity. intros <-. reflexivity. Qed.

(** C8, amended: on a cache miss [searchFoods] always returns a list and
    writes under the query's key exactly when the exchange succeeds and the
    repeated field [foods.food] of the response is present (truthy): the
    normalized list is then stored under the key with a TTL of 86400
    seconds, also when that list is empty.  When the field is absent or the
    exchange fails, the result is the empty list and nothing is written
    under the query's key. *)
Theorem search_caches_present_results query maxResults w :
  truthy (cached_value (cache_lookup (search_key query) w)) = false ->
  exists v w' delta,
    searchFoods js query maxResults w = (Ok v, w')
    /\ trace w' = delta ++ trace w
    /\ match search_response js query maxResults w with
       | Some data =>
           if truthy (envelope data "foods" "food") then
             v = normalize (envelope data "foods" "food")
             /\ (exists earlier,
                   delta = CachePut (search_key query) (StoredJson v) 86400 :: earlier
                   /\ Forall (fun e => is_put (search_key query) e = false) earlier)
             /\ cache w' !! search_key query
                = Some {| stored := StoredJson v;
                          fresh_until := clock w' + 86400 * 1000 |}
           else
             v = VArr []
             /\ Forall (fun e => is_put (search_key query) e = false) delta
       | None =>
           v = VArr []
           /\ Forall (fun e => is_put (search_key query) e = false) delta
       end.
Proof.
  intros Hmiss. unfold search_response.
  destruct (getAccessToken (record (CacheGet (search_key query)) w))
    as [[accessToken|e] w1] eqn:Htok;
    destruct (getAccessToken_emits _ _ _ Htok) as (dt & Hdt & Hall);
    cbn [trace record] in Hdt;
    assert (Forall (fun e => is_put (search_key query) e = false)
              (dt ++ [CacheGet (search_key query)])) as Hquiet
      by (apply Forall_app; split;
          [eapply Forall_impl; [exact Hall | apply token_key_not_search_key]
          | repeat constructor]).
  2:{ rewrite (searchFoods_no_token _ _ _ _ _ Hmiss Htok).
      exists (VArr []), w1, (dt ++ [CacheGet (search_key query)]).
      split; [reflexivity|]. split; [rewrite Hdt; apply trace_snoc|].
      split; [reflexivity | exact Hquiet]. }
  rewrite (searchFoods_answered _ _ _ _ _ _ Hmiss Htok eq_refl).
  set (req := search_request js accessToken query maxResults).
  destruct (api_endpoint w1 (length (trace w1)) req) as [l [m|r]];
    cbn [outcome latency].
  - exists (VArr []), (after_request req l w1), (Sent req :: dt ++ [CacheGet (search_key query)]).
    split; [reflexivity|]. split.
    { cbn [trace after_request advance record]. rewrite Hdt, trace_snoc. reflexivity. }
    split; [reflexivity|]. constructor; [reflexivity | exact Hquiet].
  - assert (trace (after_request req l w1)
            = (Sent req :: dt ++ [CacheGet (search_key query)]) ++ trace w) as Htr.
    { cbn [trace after_request advance record]. rewrite Hdt, trace_snoc. reflexivity. }
    assert (Forall (fun e => is_put (search_key query) e = false)
              (Sent req :: dt ++ [CacheGet (search_key query)])) as Hq2
      by (constructor; [reflexivity | exact Hquiet]).
    destruct (ok r); [destruct (json r) as [data|]|].
    + cbv zeta. destruct (truthy (envelope data "foods" "food")).
      * eexists _, _, (CachePut _ _ _ :: Sent req :: dt ++ [CacheGet (search_key query)]).
        split; [reflexivity|]. split.
        { unfold cache_store. cbn [trace record set_cache]. rewrite Htr. reflexivity. }
        split; [reflexivity|]. split.
        { eexists. split; [reflexivity | exact Hq2]. }
        unfold cache_store. cbn [cache clock record set_cache].
        apply lookup_insert_eq.
      * eexists _, _, _. split; [reflexivity|]. split; [exact Htr|].
        split; [reflexivity | exact Hq2].
    + eexists _, _, _. split; [reflexivity|]. split; [exact Htr|].
      split; [reflexivity | exact Hq2].
    + eexists _, _, _. split; [reflexivity|]. split; [exact Htr|].
      split; [reflexivity | exact Hq2].
Qed.

(** ** The autocomplete client *)

Lemma long_expression_truthy s :
  (2 <= String.length (trim s))%nat -> truthy (VStr s) = true.
Proof. destruct s; cbn; [lia | reflexivity]. Qed.

Lemma long_expression_not_short s :
  (2 <= String.length (trim s))%nat -> (String.length (trim s) <? 2)%nat = false.
Proof. intros H. apply Nat.ltb_ge. exact H. Qed.

Lemma autocomplete_cached s maxResults region w :
  let maxResults' := or_default maxResults (VNum (number_of_Z 4)) in
  let region' := or_default region VNull in
  let cacheKey := autocomplete_key js s maxResults' region' in
  (2 <= String.length (trim s))%nat ->
  truthy (cached_value (cache_lookup cacheKey w)) = true ->
  autocompleteSearch js (VStr s) maxResults region w
  = (Ok (cached_value (cache_lookup cacheKey w)), record (CacheGet cacheKey) w).
Proof.
  intros maxResults' region' cacheKey Hlen Hhit.
  unfold autocompleteSearch, try_catch. cbv zeta.
  unfold bind at 1, lift at 1. rewrite (long_expression_truthy _ Hlen).
  cbn [negb string_receiver]. rewrite (long_expression_not_short _ Hlen).
  unfold bind at 1, lift at 1.
  unfold bind at 1, getCachedResponse.
  fold maxResults' region' cacheKey. rewrite Hhit. reflexivity.
Qed.

Lemma autocomplete_no_token s maxResults region w e w1 :
  let maxResults' := or_default maxResults (VNum (number_of_Z 4)) in
  let region' := or_default region VNull in
  let cacheKey := autocomplete_key js s maxResults' region' in
  (2 <= String.length (trim s))%nat ->
  truthy (cached_value (cache_lookup cacheKey w)) = false ->
  getAccessToken (record (CacheGet cacheKey) w) = (Throw e, w1) ->
  autocompleteSearch js (VStr s) maxResults region w = (Ok (VArr []), w1).
Proof.
  intros maxResults' region' cacheKey Hlen Hmiss Htok.
  unfold autocompleteSearch, try_catch. cbv zeta.
  unfold bind at 1, lift at 1. rewrite (long_expression_truthy _ Hlen).
  cbn [negb string_receiver]. rewrite (long_expression_not_short _ Hlen).
  unfold bind at 1, lift at 1.
  unfold bind at 1, getCachedResponse.
  fold maxResults' region' cacheKey. rewrite Hmiss.
  rewrite (bind_throw _ _ _ _ _ Htok). reflexivity.
Qed.

(** What the autocomplete does with each answer of the upstream, on a
    cache miss and with a token. *)
Lemma autocomplete_answered s maxResults region w accessToken w1 reply :
  let maxResults' := or_default maxResults (VNum (number_of_Z 4)) in
  let region' := or_default region VNull in
  let cacheKey := autocomplete_key js s maxResults' region' in
  let req := autocomplete_request js accessToken s maxResults' region' in
  (2 <= String.length (trim s))%nat ->
  truthy (cached_value (cache_lookup cacheKey w)) = false ->
  getAccessToken (record (CacheGet cacheKey) w) = (Ok accessToken, w1) ->
  api_endpoint w1 (length (trace w1)) req = reply ->
  let w2 := after_request req (latency reply) w1 in
  autocompleteSearch js (VStr s) maxResults region w
  = match outcome reply with
    | Rejected _ => (Ok (VArr []), w2)
    | Responded r =>
        if ok r then
          match json r with
          | Some data =>
              let repeated := envelope data "suggestions" "suggestion" in
              if truthy repeated
              then (Ok (normalize repeated),
                    cache_store cacheKey (StoredJson (normalize repeated)) 900 w2)
              else (Ok (VArr []), w2)
          | None => (Ok (VArr []), w2)
          end
        else (Ok (VArr []), w2)
    end.
Proof.
  intros maxResults' region' cacheKey req Hlen Hmiss Htok Hr.
  unfold autocompleteSearch, try_catch. cbv zeta.
  unfold bind at 1, lift at 1. rewrite (long_expression_truthy _ Hlen).
  cbn [negb string_receiver]. rewrite (long_expression_not_short _ Hlen).
  unfold bind at 1, lift at 1.
  unfold bind at 1, getCachedResponse.
  fold maxResults' region' cacheKey. rewrite Hmiss.
  rewrite (bind_ok _ _ _ _ _ Htok).
  unfold bind at 1, fetch. fold req. rewrite Hr.
  destruct reply as [l [m|r]]; cbn [outcome latency]; [reflexivity|].
  fold (after_request req l w1).
  destruct (ok r); cbn [negb]; [|reflexivity].
  unfold bind at 1, response_json. destruct (json r) as [data|]; [|reflexivity].
  unfold ret at 1. unfold envelope, normalize.
  destruct (nullish data) eqn:Hd.
  { rewrite (prop_nullish _ _ Hd). destruct data; try discriminate Hd; reflexivity. }
  unfold bind at 1, lift at 1. rewrite (get_prop_prop _ _ Hd).
  destruct (truthy (prop data "suggestions")) eqn:Hf; cbn [negb].
  2:{ rewrite (prop_falsy _ "suggestion" Hf). reflexivity. }
  unfold bind at 1, lift at 1. rewrite (get_prop_prop _ _ (truthy_not_nullish _ Hf)).
  destruct (truthy (prop (prop data "suggestions") "suggestion")); reflexivity.
Qed.

(** ** Envelope normalization *)




(** ** Case and white space *)







Lemma normalize_truthy v : truthy (normalize v) = true.
Proof. unfold normalize. destruct (truthy v); [destruct v|]; reflexivity. Qed.

Lemma cache_lookup_entry key (w : World) v f :
  cache w !! key = Some {| stored := v; fresh_until := f |} ->
  clock w <= f ->
  cache_lookup key w = Some v.
Proof.
  intros H Hf. unfold cache_lookup. rewrite H. cbn [fresh_until stored].
  destruct (Z.leb_spec (clock w) f); [reflexivity | lia].
Qed.

(** Every call of the token manager begins with a lookup of the token
    key. *)
Lemma getAccessToken_looks_up w r w' :
  getAccessToken w = (r, w') ->
  exists later, trace w' = later ++ CacheGet TOKEN_CACHE_KEY :: trace w.
Proof.
  destruct (usable_token w) as [t|] eqn:Hu.
  - rewrite (getAccessToken_cached _ _ Hu). intros H. injection H as <- <-.
    exists []. reflexivity.
  - rewrite (getAccessToken_refresh _ Hu). intros H.
    destruct (request_token_emits _ _ _ H) as (delta & Ht & _).
    exists delta. exact Ht.
Qed.




(** ** The orchestrator *)

Lemma try_catch_bind_ok {S A B} (m : M S A) (k : A -> M S B) h s a s' :
  m s = (Ok a, s') -> try_catch (bind m k) h s = try_catch (k a) h s'.
Proof. intros H. unfold try_catch, bind. rewrite H. reflexivity. Qed.

Lemma try_catch_bind_throw {S A B} (m : M S A) (k : A -> M S B) h s e s' :
  m s = (Throw e, s') -> try_catch (bind m k) h s = h e s'.
Proof. intros H. unfold try_catch, bind. rewrite H. reflexivity. Qed.

Lemma emits_unless_emits {A} P good (m : M World A) :
  emits P m -> emits_unless P good m.
Proof.
  intros Hm w r w' Hrun. destruct (Hm _ _ _ Hrun) as (d & Ht & HP).
  exists d. split; [exact Ht | right; exact HP].
Qed.

Lemma emits_unless_bind {A B} P good (m : M World A) (k : A -> M World B) :
  emits P m -> (forall a, emits_unless P good (k a)) ->
  emits_unless P good (bind m k).
Proof.
  intros Hm Hk w r w' Hrun. unfold bind in Hrun.
  destruct (m w) as [[a|e] w1] eqn:E; destruct (Hm _ _ _ E) as (d1 & Ht1 & HP1).
  - destruct (Hk a _ _ _ Hrun) as (d2 & Ht2 & [Hgood|HP2]);
      exists (d2 ++ d1); (split; [rewrite Ht2, Ht1; apply app_assoc|]).
    + left. exact Hgood.
    + right. apply Forall_app. split; assumption.
  - injection Hrun as <- <-. exists d1. split; [exact Ht1 | right; exact HP1].
Qed.

Lemma emits_unless_try_catch {A} P good (m : M World A) (h : exn -> M World A) :
  emits_unless P good m -> (forall e, emits P (h e)) ->
  emits_unless P good (try_catch m h).
Proof.
  intros Hm Hh w r w' Hrun. unfold try_catch in Hrun.
  destruct (m w) as [[a|e] w1] eqn:E; destruct (Hm _ _ _ E) as (d1 & Ht1 & H1).
  - injection Hrun as <- <-. exists d1. split; assumption.
  - destruct H1 as [(a & Ha & _)|HP1]; [discriminate Ha|].
    destruct (Hh e _ _ _ Hrun) as (d2 & Ht2 & HP2).
    exists (d2 ++ d1). split; [rewrite Ht2, Ht1; apply app_assoc|].
    right. apply Forall_app. split; assumption.
Qed.

Lemma emits_unless_store_then_ret {A} P (good : A -> Prop) key v ttl (a : A) :
  good a -> emits_unless P good (bind (cacheResponse key v ttl) (fun _ => ret a)).
Proof.
  intros Hgood w r w' Hrun. injection Hrun as <- <-.
  exists [CachePut key v ttl]. split; [reflexivity|]. left. exists a. split; [reflexivity | exact Hgood].
Qed.

Lemma no_nutrition_put_allowed (keys : string -> Prop) e :
  (forall k label, keys k -> String.eqb k (nutrition_key label) = false) ->
  allowed keys e -> no_nutrition_put e.
Proof.
  intros Hk. destruct e as [k|k v ttl|req]; cbn [allowed]; intros H label; try reflexivity.
  cbn [is_put]. apply Hk. exact H.
Qed.

Lemma searchFoods_no_nutrition_put query maxResults :
  emits no_nutrition_put (searchFoods js query maxResults).
Proof.
  eapply emits_weaken; [|apply searchFoods_emits].
  intros e. apply no_nutrition_put_allowed.
  intros k label [-> | ->]; reflexivity.
Qed.

Lemma getFoodDetails_no_nutrition_put foodId :
  emits no_nutrition_put (getFoodDetails js foodId).
Proof.
  eapply emits_weaken; [|apply getFoodDetails_emits].
  intros e. apply no_nutrition_put_allowed.
  intros k label [-> | ->]; reflexivity.
Qed.

Lemma nutrition_value_not_null n : nutrition_value n <> VNull.
Proof. discriminate. Qed.

(** A run of the orchestrator writes a nutrition entry only when it
    returns a value other than [null]. *)
Lemma getNutrition_emits foodLabel :
  emits_unless no_nutrition_put (fun v => v <> VNull)
    (getNutritionFromFatSecret js foodLabel).
Proof.
  unfold getNutritionFromFatSecret. cbv zeta.
  apply emits_unless_try_catch; [|intros e; apply emits_ret].
  destruct (negb (truthy foodLabel)); [apply emits_unless_emits, emits_ret|].
  apply emits_unless_bind; [apply emits_lift | intros label].
  apply emits_unless_bind;
    [apply emits_getCachedResponse; intros l; reflexivity | intros cached].
  destruct (truthy (cached_value cached)); [apply emits_unless_emits, emits_ret|].
  apply emits_unless_bind; [apply searchFoods_no_nutrition_put | intros results].
  apply emits_unless_bind; [apply emits_lift | intros none].
  destruct none; [apply emits_unless_emits, emits_ret|].
  apply emits_unless_bind; [apply emits_lift | intros first].
  apply emits_unless_bind; [apply emits_lift | intros foodId].
  apply emits_unless_bind; [apply getFoodDetails_no_nutrition_put | intros details].
  apply emits_unless_bind; [apply emits_lift | intros n].
  apply emits_unless_store_then_ret. apply nutrition_value_not_null.
Qed.

Lemma searchFoods_failed query maxResults w :
  truthy (cached_value (cache_lookup (search_key query) w)) = false ->
  search_response js query maxResults w = None ->
  exists w', searchFoods js query maxResults w = (Ok (VArr []), w').
Proof.
  intros Hmiss Hresp. unfold search_response in Hresp.
  destruct (getAccessToken (record (CacheGet (search_key query)) w))
    as [[accessToken|e] w1] eqn:Htok.
  - rewrite (searchFoods_answered _ _ _ _ _ _ Hmiss Htok eq_refl).
    destruct (outcome _) as [m|r]; [eexists; reflexivity|].
    destruct (ok r); [|eexists; reflexivity].
    rewrite Hresp. eexists; reflexivity.
  - rewrite (searchFoods_no_token _ _ _ _ _ Hmiss Htok). eexists; reflexivity.
Qed.

(** The orchestrator up to the search, for a label that is a non-empty
    string with no cached nutrition. *)
Lemma getNutrition_after_search label w r w1 :
  truthy (VStr label) = true ->
  truthy (cached_value (cache_lookup (nutrition_key label) w)) = false ->
  searchFoods js label (number_of_Z 3) (record (CacheGet (nutrition_key label)) w)
  = (r, w1) ->
  getNutritionFromFatSecret js (VStr label) w
  = match r with
    | Throw _ => (Ok VNull, w1)
    | Ok searchResults =>
        try_catch
          (none <- lift (if negb (truthy searchResults) then Ok true
                         else length_is_zero searchResults) ;;
           if (none : bool) then ret VNull else
           first <- lift (index0 searchResults) ;;
           foodId <- lift (get_prop first "food_id") ;;
           foodDetails <- getFoodDetails js foodId ;;
           nutritionData <- lift (standardizeNutritionData js foodDetails) ;;
           cacheResponse (nutrition_key label)
             (StoredJson (nutrition_value nutritionData)) 86400 ;;;
           ret (nutrition_value nutritionData))
          (fun _ => ret VNull) w1
    end.
Proof.
  intros Hlabel Hmiss Hsearch. unfold getNutritionFromFatSecret. cbv zeta.
  rewrite Hlabel. cbn [negb].
  rewrite (try_catch_bind_ok _ _ _ w label w) by reflexivity.
  rewrite (try_catch_bind_ok _ _ _ w (cache_lookup (nutrition_key label) w)
             (record (CacheGet (nutrition_key label)) w)) by reflexivity.
  rewrite Hmiss.
  destruct r as [searchResults|e].
  - rewrite (try_catch_bind_ok _ _ _ _ _ _ Hsearch). reflexivity.
  - rewrite (try_catch_bind_throw _ _ _ _ _ _ Hsearch). reflexivity.
Qed.

(** C7: [getNutritionFromFatSecret] never propagates an exception, and a
    run that returns [null] has written no nutrition entry.  It returns
    [null] when the search yields no results, when the first result cannot
    be read, when the detail lookup throws and when the normalizer throws;
    in particular it returns [null] for "kale" when the search exchange
    fails. *)
Theorem nutrition_lookup_fails_open :
  (forall foodLabel w,
      exists v w' delta,
        getNutritionFromFatSecret js foodLabel w = (Ok v, w')
        /\ trace w' = delta ++ trace w
        /\ (v = VNull -> Forall no_nutrition_put delta))
  /\ (forall label w w1,
      truthy (VStr label) = true ->
      truthy (cached_value (cache_lookup (nutrition_key label) w)) = false ->
      searchFoods js label (number_of_Z 3) (record (CacheGet (nutrition_key label)) w)
      = (Ok (VArr []), w1) ->
      getNutritionFromFatSecret js (VStr label) w = (Ok VNull, w1))
  /\ (forall label w first rest w1,
      truthy (VStr label) = true ->
      truthy (cached_value (cache_lookup (nutrition_key label) w)) = false ->
      searchFoods js label (number_of_Z 3) (record (CacheGet (nutrition_key label)) w)
      = (Ok (VArr (first :: rest)), w1) ->
      (nullish first = true ->
       getNutritionFromFatSecret js (VStr label) w = (Ok VNull, w1))
      /\ (forall e w2,
          nullish first = false ->
          getFoodDetails js (prop first "food_id") w1 = (Throw e, w2) ->
          getNutritionFromFatSecret js (VStr label) w = (Ok VNull, w2))
      /\ (forall foodDetails e w2,
          nullish first = false ->
          getFoodDetails js (prop first "food_id") w1 = (Ok foodDetails, w2) ->
          standardizeNutritionData js foodDetails = Throw e ->
          getNutritionFromFatSecret js (VStr label) w = (Ok VNull, w2)))
  /\ (forall w,
      truthy (cached_value (cache_lookup (nutrition_key "kale") w)) = false ->
      truthy (cached_value
                (cache_lookup (search_key "kale")
                   (record (CacheGet (nutrition_key "kale")) w))) = false ->
      search_response js "kale" (number_of_Z 3)
        (record (CacheGet (nutrition_key "kale")) w) = None ->
      exists w', getNutritionFromFatSecret js (VStr "kale") w = (Ok VNull, w')).
Proof.
  split; [|split; [|split]].
  - intros foodLabel w.
    destruct (getNutritionFromFatSecret js foodLabel w) as [r w'] eqn:Hrun.
    destruct (getNutrition_emits foodLabel _ _ _ Hrun) as (delta & Ht & Hd).
    assert (exists v, r = Ok v) as [v ->].
    { unfold getNutritionFromFatSecret, try_catch in Hrun.
      destruct (_ w) as [[a|e] w0]; injection Hrun as <- <-; eexists; reflexivity. }
    exists v, w', delta. split; [reflexivity|]. split; [exact Ht|].
    intros ->. destruct Hd as [(a & Ha & Hgood)|Hd]; [|exact Hd].
    injection Ha as <-. contradiction.
  - intros label w w1 Hlabel Hmiss Hsearch.
    rewrite (getNutrition_after_search _ _ _ _ Hlabel Hmiss Hsearch). reflexivity.
  - intros label w first rest w1 Hlabel Hmiss Hsearch.
    rewrite (getNutrition_after_search _ _ _ _ Hlabel Hmiss Hsearch).
    cbn [truthy negb length_is_zero].
    rewrite (try_catch_bind_ok _ _ _ w1 false w1) by reflexivity.
    rewrite (try_catch_bind_ok _ _ _ w1 first w1) by reflexivity.
    split; [|split].
    + intros Hnull. destruct first; try discriminate Hnull; reflexivity.
    + intros e w2 Hfirst Hdetails.
      rewrite (try_catch_bind_ok _ _ _ w1 (prop first "food_id") w1)
        by (unfold lift; rewrite (get_prop_prop _ _ Hfirst); reflexivity).
      rewrite (try_catch_bind_throw _ _ _ _ _ _ Hdetails). reflexivity.
    + intros foodDetails e w2 Hfirst Hdetails Hstd.
      rewrite (try_catch_bind_ok _ _ _ w1 (prop first "food_id") w1)
        by (unfold lift; rewrite (get_prop_prop _ _ Hfirst); reflexivity).
      rewrite (try_catch_bind_ok _ _ _ _ _ _ Hdetails).
      rewrite (try_catch_bind_throw _ _ _ w2 e w2)
        by (unfold lift; rewrite Hstd; reflexivity).
      reflexivity.
  - intros w Hmiss Hsmiss Hresp.
    destruct (searchFoods_failed _ _ _ Hsmiss Hresp) as (w' & Hsearch).
    exists w'.
    rewrite (getNutrition_after_search "kale" _ _ _ eq_refl Hmiss Hsearch). reflexivity.
Qed.

(** ** The callable handlers *)

(** C1, what the code does: in each handler the [invalid-argument] error
    is thrown inside the [try] block whose [catch] rewraps every error, so
    a call whose required argument is absent fails with an [internal]
    error that carries the validation message as its details.  An error
    thrown by the adapter is surfaced likewise, as [internal] with the
    original message. *)
Theorem handlers_rewrap_every_error fatSecretAPI data w :
  nullish data = false ->
  (truthy (prop data "foodName") = false ->
   searchFatSecretNutrition fatSecretAPI data w
   = (Throw (HttpsError "internal" "Error searching for nutrition data"
               (Some "Missing food name to search")), w))
  /\ (truthy (prop data "foodId") = false ->
      getFatSecretFoodDetails js fatSecretAPI data w
      = (Throw (HttpsError "internal" "Error getting food details"
                  (Some "Missing food ID")), w))
  /\ (truthy (prop data "query") = false ->
      getAutocompleteSuggestions fatSecretAPI data w
      = (Throw (HttpsError "internal" "Error getting autocomplete suggestions"
                  (Some "Missing search query")), w))
  /\ (forall e w1,
      truthy (prop data "foodId") = true ->
      api_getFoodDetails fatSecretAPI (prop data "foodId") w = (Throw e, w1) ->
      getFatSecretFoodDetails js fatSecretAPI data w
      = (Throw (HttpsError "internal" "Error getting food details"
                  (Some (exn_message e))), w1)).
Proof.
  intros Hd. split; [|split; [|split]].
  - intros Hf. unfold searchFatSecretNutrition, try_catch, bind, lift.
    rewrite (get_prop_prop _ _ Hd), Hf. reflexivity.
  - intros Hf. unfold getFatSecretFoodDetails, try_catch, bind, lift.
    rewrite (get_prop_prop _ _ Hd), Hf. reflexivity.
  - intros Hf. unfold getAutocompleteSuggestions, try_catch, bind, lift.
    rewrite (get_prop_prop _ _ Hd), Hf. reflexivity.
  - intros e w1 Hf Hcall. unfold getFatSecretFoodDetails.
    rewrite (try_catch_bind_ok _ _ _ w (prop data "foodId") w)
      by (unfold lift; rewrite (get_prop_prop _ _ Hd); reflexivity).
    rewrite Hf. cbn [negb].
    rewrite (try_catch_bind_throw _ _ _ _ _ _ Hcall).
    unfold bind, lift. rewrite (get_prop_prop _ _ Hd). reflexivity.
Qed.

(** * Further properties of the adapter *)

(** ** The detail client *)

Lemma getFoodDetails_cached foodId w :
  truthy (cached_value (cache_lookup (food_key js foodId) w)) = true ->
  getFoodDetails js foodId w
  = (Ok (cached_value (cache_lookup (food_key js foodId) w)),
     record (CacheGet (food_key js foodId)) w).
Proof.
  intros Hhit. unfold getFoodDetails. rewrite try_catch_rethrow.
  cbv zeta. unfold bind at 1, getCachedResponse. rewrite Hhit. reflexivity.
Qed.

Lemma getFoodDetails_no_token foodId w e w1 :
  truthy (cached_value (cache_lookup (food_key js foodId) w)) = false ->
  getAccessToken (record (CacheGet (food_key js foodId)) w) = (Throw e, w1) ->
  getFoodDetails js foodId w = (Throw e, w1).
Proof.
  intros Hmiss Htok. unfold getFoodDetails. rewrite try_catch_rethrow.
  cbv zeta. unfold bind at 1, getCachedResponse. rewrite Hmiss.
  rewrite (bind_throw _ _ _ _ _ Htok). reflexivity.
Qed.

(** What the detail lookup does with each answer of the upstream, on a
    cache miss and with a token. *)
Lemma getFoodDetails_answered foodId w accessToken w1 reply :
  truthy (cached_value (cache_lookup (food_key js foodId) w)) = false ->
  getAccessToken (record (CacheGet (food_key js foodId)) w) = (Ok accessToken, w1) ->
  api_endpoint w1 (length (trace w1)) (details_request js accessToken foodId) = reply ->
  let w2 := after_request (details_request js accessToken foodId) (latency reply) w1 in
  getFoodDetails js foodId w
  = match outcome reply with
    | Rejected m => (Throw (FetchError m), w2)
    | Responded r =>
        if ok r then
          match json r with
          | Some data =>
              match get_prop data "food" with
              | Ok food =>
                  (Ok food, cache_store (food_key js foodId) (StoredJson food) 604800 w2)
              | Throw e => (Throw e, w2)
              end
          | None => (Throw (JsSyntaxError "Unexpected token in JSON"), w2)
          end
        else (Throw (JsError ("Failed to get FatSecret food details: "
                              +:+ pretty (status r))), w2)
    end.
Proof.
  intros Hmiss Htok Hr. unfold getFoodDetails. rewrite try_catch_rethrow.
  cbv zeta. unfold bind at 1, getCachedResponse. rewrite Hmiss.
  rewrite (bind_ok _ _ _ _ _ Htok).
  unfold bind at 1, fetch. rewrite Hr.
  destruct reply as [l [m|r]]; cbn [outcome latency]; [reflexivity|].
  fold (after_request (details_request js accessToken foodId) l w1).
  destruct (ok r); cbn [negb]; [|reflexivity].
  unfold bind at 1, response_json. destruct (json r) as [data|]; [|reflexivity].
  unfold ret at 1. unfold bind at 1, lift.
  destruct (get_prop data "food"); reflexivity.
Qed.

Lemma token_key_not_food_key foodId e :
  allowed (eq TOKEN_CACHE_KEY) e -> is_put (food_key js foodId) e = false.
Proof. destruct e as [k|k v ttl|req]; cbn; try reflexivity. intros <-. reflexivity. Qed.

(** A run of the detail lookup that throws has written nothing under the
    food's key. *)
Lemma getFoodDetails_emits_unless foodId :
  emits_unless (fun e => is_put (food_key js foodId) e = false) (fun _ => True)
    (getFoodDetails js foodId).
Proof.
  unfold getFoodDetails. cbv zeta.
  apply emits_unless_try_catch; [|intros e; apply emits_throw].
  apply emits_unless_bind;
    [apply emits_getCachedResponse; reflexivity | intros cached].
  destruct (truthy (cached_value cached)); [apply emits_unless_emits, emits_ret|].
  apply emits_unless_bind.
  { eapply emits_weaken; [apply token_key_not_food_key | apply getAccessToken_emits]. }
  intros accessToken.
  apply emits_unless_bind; [apply emits_fetch; reflexivity | intros response].
  destruct (negb (ok response)); [apply emits_unless_emits, emits_throw|].
  apply emits_unless_bind; [apply emits_response_json | intros data].
  apply emits_unless_bind; [apply emits_lift | intros food].
  apply emits_unless_store_then_ret. exact I.
Qed.

(** X3: the detail lookup fails closed.  On a cache miss, a failure of the
    token manager, a rejected request, a non-success status and a body that
    is not JSON each reach the caller as the exception they raise; and a run
    that throws has written nothing under the food's key. *)
Theorem details_fail_closed foodId w :
  truthy (cached_value (cache_lookup (food_key js foodId) w)) = false ->
  (forall e w1,
      getAccessToken (record (CacheGet (food_key js foodId)) w) = (Throw e, w1) ->
      getFoodDetails js foodId w = (Throw e, w1))
  /\ (forall accessToken w1 l outcome_,
      getAccessToken (record (CacheGet (food_key js foodId)) w) = (Ok accessToken, w1) ->
      api_endpoint w1 (length (trace w1)) (details_request js accessToken foodId)
      = {| latency := l; outcome := outcome_ |} ->
      let w2 := after_request (details_request js accessToken foodId) l w1 in
      match outcome_ with
      | Rejected m => getFoodDetails js foodId w = (Throw (FetchError m), w2)
      | Responded r =>
          (ok r = false ->
           getFoodDetails js foodId w
           = (Throw (JsError ("Failed to get FatSecret food details: "
                              +:+ pretty (status r))), w2))
          /\ (ok r = true -> json r = None ->
              getFoodDetails js foodId w
              = (Throw (JsSyntaxError "Unexpected token in JSON"), w2))
      end)
  /\ (forall e w',
      getFoodDetails js foodId w = (Throw e, w') ->
      exists delta,
        trace w' = delta ++ trace w
        /\ Forall (fun ev => is_put (food_key js foodId) ev = false) delta).
Proof.
  intros Hmiss. split; [|split].
  - intros e w1 Htok. apply getFoodDetails_no_token; assumption.
  - intros accessToken w1 l o Htok Hr. cbv zeta.
    rewrite (getFoodDetails_answered _ _ _ _ _ Hmiss Htok Hr). cbn [outcome latency].
    destruct o as [m|r]; [reflexivity|]. split.
    + intros ->. reflexivity.
    + intros -> ->. reflexivity.
  - intros e w' Hrun.
    destruct (getFoodDetails_emits_unless foodId _ _ _ Hrun) as (delta & Ht & [H|H]).
    + destruct H as (a & Ha & _). discriminate Ha.
    + exists delta. split; assumption.
Qed.

Lemma cached_value_falsy_entry key (w : World) v f :
  cache w !! key = Some {| stored := StoredJson v; fresh_until := f |} ->
  truthy v = false ->
  truthy (cached_value (cache_lookup key w)) = false.
Proof.
  intros H Hv. unfold cache_lookup. rewrite H. cbn [fresh_until stored].
  destruct (clock w <=? f); [exact Hv | reflexivity].
Qed.

(** On a miss the detail lookup goes on to the token manager. *)
Lemma getFoodDetails_miss_trace foodId w r w' :
  truthy (cached_value (cache_lookup (food_key js foodId) w)) = false ->
  getFoodDetails js foodId w = (r, w') ->
  exists later,
    trace w'
    = later ++ CacheGet TOKEN_CACHE_KEY :: CacheGet (food_key js foodId) :: trace w.
Proof.
  intros Hmiss Hrun.
  destruct (getAccessToken (record (CacheGet (food_key js foodId)) w))
    as [[accessToken|e] w1] eqn:Htok;
    destruct (getAccessToken_looks_up _ _ _ Htok) as (later & Ht);
    cbn [trace record] in Ht.
  - rewrite (getFoodDetails_answered _ _ _ _ _ Hmiss Htok eq_refl) in Hrun.
    destruct (api_endpoint w1 _ _) as [l [m|resp]]; cbn [outcome latency] in Hrun.
    + injection Hrun as <- <-. exists (Sent (details_request js accessToken foodId) :: later).
      cbn [trace after_request advance record]. rewrite Ht. reflexivity.
    + destruct (ok resp); [destruct (json resp) as [data|];
                           [destruct (get_prop data "food")|]|];
        injection Hrun as <- <-;
        try (exists (Sent (details_request js accessToken foodId) :: later);
             cbn [trace after_request advance record]; rewrite Ht; reflexivity).
      eexists (CachePut _ _ _ :: Sent (details_request js accessToken foodId) :: later).
      unfold cache_store. cbn [trace after_request advance record set_cache].
      rewrite Ht. reflexivity.
  - rewrite (getFoodDetails_no_token _ _ _ _ Hmiss Htok) in Hrun.
    injection Hrun as <- <-. exists later. exact Ht.
Qed.

(** X4: a successful detail lookup stores [detailsData.food], whatever it
    is, under the food's key for 604800 seconds.  When the stored detail is
    truthy, a later call in any world that still holds the entry, up to
    seven days later, returns it with the cache lookup as its only event.
    When it is falsy (the answer had no [food] field), the entry never
    serves a call: every later call goes on to the token manager as on a
    miss. *)
Theorem details_cached_for_a_week foodId w accessToken w1 l r data food :
  truthy (cached_value (cache_lookup (food_key js foodId) w)) = false ->
  getAccessToken (record (CacheGet (food_key js foodId)) w) = (Ok accessToken, w1) ->
  api_endpoint w1 (length (trace w1)) (details_request js accessToken foodId)
  = {| latency := l; outcome := Responded r |} ->
  ok r = true ->
  json r = Some data ->
  get_prop data "food" = Ok food ->
  exists w',
    getFoodDetails js foodId w = (Ok food, w')
    /\ clock w' = clock w1 + Z.of_N l
    /\ cache w' !! food_key js foodId
       = Some {| stored := StoredJson food; fresh_until := clock w' + 604800 * 1000 |}
    /\ (truthy food = true ->
        forall w2,
          cache w2 !! food_key js foodId = cache w' !! food_key js foodId ->
          clock w2 <= clock w' + 604800 * 1000 ->
          getFoodDetails js foodId w2
          = (Ok food, record (CacheGet (food_key js foodId)) w2))
    /\ (truthy food = false ->
        forall w2 r2 w3,
          cache w2 !! food_key js foodId = cache w' !! food_key js foodId ->
          getFoodDetails js foodId w2 = (r2, w3) ->
          exists later,
            trace w3
            = later ++ CacheGet TOKEN_CACHE_KEY
                :: CacheGet (food_key js foodId) :: trace w2).
Proof.
  intros Hmiss Htok Hr Hok Hjson Hfood.
  pose proof (getFoodDetails_answered _ _ _ _ _ Hmiss Htok Hr) as Hrun.
  cbn [outcome latency] in Hrun. cbv zeta in Hrun. rewrite Hok, Hjson, Hfood in Hrun.
  eexists. split; [exact Hrun|]. split; [reflexivity|].
  assert (forall w0 : World,
            cache (cache_store (food_key js foodId) (StoredJson food) 604800 w0)
              !! food_key js foodId
            = Some {| stored := StoredJson food;
                      fresh_until := clock w0 + 604800 * 1000 |}) as Hentry.
  { intros w0. unfold cache_store. cbn [cache record set_cache]. apply lookup_insert_eq. }
  split; [rewrite Hentry; reflexivity|]. split.
  - intros Htruthy w2 Hsame Hfresh. rewrite Hentry in Hsame.
    pose proof (cache_lookup_entry _ _ _ _ Hsame Hfresh) as Hlook.
    rewrite (getFoodDetails_cached foodId w2); rewrite Hlook; [reflexivity | exact Htruthy].
  - intros Hfalsy w2 r2 w3 Hsame Hrun2. rewrite Hentry in Hsame.
    apply (getFoodDetails_miss_trace foodId w2 r2 w3); [|exact Hrun2].
    apply (cached_value_falsy_entry _ _ _ _ Hsame Hfalsy).
Qed.

(** ** The fail-open clients *)

Lemma normalize_isArray v : isArray (normalize v) = true.
Proof. unfold normalize. destruct (truthy v); [destruct v|]; reflexivity. Qed.

Lemma searchFoods_returns query maxResults w :
  exists v w',
    searchFoods js query maxResults w = (Ok v, w')
    /\ (isArray v = true
        \/ (v = cached_value (cache_lookup (search_key query) w) /\ truthy v = true)).
Proof.
  destruct (truthy (cached_value (cache_lookup (search_key query) w))) eqn:Hc.
  - rewrite (searchFoods_cached _ _ _ Hc). eexists _, _. split; [reflexivity|].
    right. split; [reflexivity | exact Hc].
  - destruct (getAccessToken (record (CacheGet (search_key query)) w))
      as [[accessToken|e] w1] eqn:Htok.
    + rewrite (searchFoods_answered _ _ _ _ _ _ Hc Htok eq_refl).
      destruct (outcome _) as [m|r]; [eexists _, _; split; [reflexivity | left; reflexivity]|].
      destruct (ok r); [|eexists _, _; split; [reflexivity | left; reflexivity]].
      destruct (json r) as [data|];
        [|eexists _, _; split; [reflexivity | left; reflexivity]].
      cbv zeta. destruct (truthy (envelope data "foods" "food"));
        eexists _, _; (split; [reflexivity|]); left;
        [apply normalize_isArray | reflexivity].
    + rewrite (searchFoods_no_token _ _ _ _ _ Hc Htok).
      eexists _, _. split; [reflexivity | left; reflexivity].
Qed.

Lemma autocompleteSearch_returns expression maxResults region w :
  exists v w',
    autocompleteSearch js expression maxResults region w = (Ok v, w')
    /\ (isArray v = true
        \/ (exists s,
              expression = VStr s
              /\ v = cached_value
                       (cache_lookup (autocomplete_call_key js s maxResults region) w)
              /\ truthy v = true)).
Proof.
  destruct (truthy expression) eqn:Hexpr.
  2:{ exists (VArr []), w. split; [|left; reflexivity].
      unfold autocompleteSearch, try_catch, bind, lift. rewrite Hexpr. reflexivity. }
  destruct expression as [| |b|n|s|items|fs]; try discriminate Hexpr;
    try (exists (VArr []), w; split; [|left; reflexivity];
         unfold autocompleteSearch, try_catch, bind, lift; rewrite Hexpr; reflexivity).
  destruct (Nat.ltb_spec (String.length (trim s)) 2) as [Hshort|Hlen].
  { exists (VArr []), w. split; [|left; reflexivity].
    unfold autocompleteSearch, try_catch, bind, lift. cbn [string_receiver].
    apply Nat.ltb_lt in Hshort. rewrite Hshort.
    destruct (negb (truthy (VStr s))); reflexivity. }
  destruct (truthy (cached_value
                      (cache_lookup (autocomplete_call_key js s maxResults region) w)))
    eqn:Hc.
  - rewrite (autocomplete_cached _ _ _ _ Hlen Hc). eexists _, _. split; [reflexivity|].
    right. exists s. split; [reflexivity|]. split; [reflexivity | exact Hc].
  - destruct (getAccessToken
                (record (CacheGet (autocomplete_call_key js s maxResults region)) w))
      as [[accessToken|e] w1] eqn:Htok.
    + rewrite (autocomplete_answered _ _ _ _ _ _ _ Hlen Hc Htok eq_refl).
      destruct (outcome _) as [m|r]; [eexists _, _; split; [reflexivity | left; reflexivity]|].
      destruct (ok r); [|eexists _, _; split; [reflexivity | left; reflexivity]].
      destruct (json r) as [data|];
        [|eexists _, _; split; [reflexivity | left; reflexivity]].
      cbv zeta. destruct (truthy (envelope data "suggestions" "suggestion"));
        eexists _, _; (split; [reflexivity|]); left;
        [apply normalize_isArray | reflexivity].
    + rewrite (autocomplete_no_token _ _ _ _ _ _ Hlen Hc Htok).
      eexists _, _. split; [reflexivity | left; reflexivity].
Qed.

(** X1: the search and the autocomplete fail open.  Every call returns a
    value and propagates no exception, whatever the cache, the environment
    and the upstream do; the value is a list, or else the truthy value that
    the cache held under the call's key. *)
Theorem clients_fail_open :
  (forall query maxResults w,
      exists v w',
        searchFoods js query maxResults w = (Ok v, w')
        /\ (isArray v = true
            \/ (v = cached_value (cache_lookup (search_key query) w)
                /\ truthy v = true)))
  /\ (forall expression maxResults region w,
      exists v w',
        autocompleteSearch js expression maxResults region w = (Ok v, w')
        /\ (isArray v = true
            \/ (exists s,
                  expression = VStr s
                  /\ v = cached_value
                           (cache_lookup
                              (autocomplete_call_key js s maxResults region) w)
                  /\ truthy v = true))).
Proof.
  split.
  - intros query maxResults w. apply searchFoods_returns.
  - intros expression maxResults region w. apply autocompleteSearch_returns.
Qed.

(** ** The search cache key *)

(** X2: the cache key of [searchFoods] is built from the lower-cased,
    trimmed query and from nothing else, while the request carries the
    query as given.  So when a first search has fetched and cached a list,
    a later search whose query is the same up to letter case and
    surrounding white space, whatever its [maxResults], made while the entry
    is held (within its 86400 seconds), returns that list with the cache
    lookup as its only event. *)
Theorem search_cache_ignores_case_and_padding q1 q2 maxResults w data :
  trim (toLowerCase q1) = trim (toLowerCase q2) ->
  truthy (cached_value (cache_lookup (search_key q1) w)) = false ->
  search_response js q1 maxResults w = Some data ->
  truthy (envelope data "foods" "food") = true ->
  search_key q2 = search_key q1
  /\ (forall accessToken,
      field_of_body "search_expression" (search_request js accessToken q1 maxResults)
      = Some q1)
  /\ exists foods w1,
       searchFoods js q1 maxResults w = (Ok foods, w1)
       /\ forall w2 maxResults2,
            cache w2 !! search_key q1 = cache w1 !! search_key q1 ->
            clock w2 <= clock w1 + 86400 * 1000 ->
            searchFoods js q2 maxResults2 w2
            = (Ok foods, record (CacheGet (search_key q1)) w2).
Proof.
  intros Hsame Hmiss Hresp Hpresent.
  assert (search_key q2 = search_key q1) as Hkey
      by (unfold search_key; rewrite Hsame; reflexivity).
  split; [exact Hkey|]. split; [reflexivity|].
  unfold search_response in Hresp.
  destruct (getAccessToken _) as [[accessToken|e] w0] eqn:Htok; [|discriminate Hresp].
  pose proof (searchFoods_answered q1 maxResults w accessToken w0 _ Hmiss Htok eq_refl)
    as Hrun.
  cbv zeta in Hrun.
  destruct (api_endpoint w0 (length (trace w0)) (search_request js accessToken q1 maxResults))
    as [l [m|r]]; cbn [outcome latency] in Hrun, Hresp; [discriminate Hresp|].
  destruct (ok r); [|discriminate Hresp]. rewrite Hresp, Hpresent in Hrun.
  eexists _, _. split; [exact Hrun|].
  intros w2 maxResults2 Hentry Hfresh.
  assert (cache_lookup (search_key q2) w2
          = Some (StoredJson (normalize (envelope data "foods" "food")))) as Hlook.
  { rewrite Hkey. eapply cache_lookup_entry.
    - rewrite Hentry. unfold cache_store. cbn [cache record set_cache].
      apply lookup_insert_eq.
    - exact Hfresh. }
  rewrite (searchFoods_cached q2 maxResults2 w2); rewrite Hlook.
  - rewrite Hkey. reflexivity.
  - apply normalize_truthy.
Qed.

(** ** The bound on [max_results] *)

Lemma math_min_ten_bound n : SFcompare (math_min n ten) ten <> Some Gt.
Proof.
  unfold math_min. destruct (SFcompare n ten) as [[| |]|] eqn:E.
  - destruct n as [[|]| | |]; try (rewrite E; discriminate); vm_compute; discriminate.
  - rewrite E. discriminate.
  - vm_compute. discriminate.
  - vm_compute. discriminate.
Qed.

(** X5: the request of [autocompleteSearch] carries
    [Math.min(maxResults, 10)]: for a numeric [maxResults] the number sent
    is never above 10, it is [maxResults] itself when that is below 10 and
    10 when it is above; and when [maxResults] is not given, 4 is sent. *)
Theorem autocomplete_max_results_clamped accessToken expression region :
  (forall n,
      exists m,
        field_of_body "max_results"
          (autocomplete_call_request js accessToken expression (VNum n) region)
        = Some (number_toString js m)
        /\ SFcompare m ten <> Some Gt
        /\ (SFcompare n ten = Some Lt -> m = n)
        /\ (SFcompare n ten = Some Gt -> m = ten))
  /\ field_of_body "max_results"
       (autocomplete_call_request js accessToken expression VUndefined region)
     = Some (number_toString js (number_of_Z 4)).
Proof.
  split.
  - intros n. exists (math_min n ten). split; [reflexivity|].
    split; [apply math_min_ten_bound|].
    unfold math_min. split; intros ->; reflexivity.
  - reflexivity.
Qed.

(** ** The orchestrator, when the lookup succeeds *)

Lemma standardize_total payload :
  nullish payload = false -> exists n, standardizeNutritionData js payload = Ok n.
Proof.
  intros Hp. unfold standardizeNutritionData. rewrite (get_prop_prop _ _ Hp).
  eexists. reflexivity.
Qed.

Lemma getNutrition_cached label w :
  truthy (VStr label) = true ->
  truthy (cached_value (cache_lookup (nutrition_key label) w)) = true ->
  getNutritionFromFatSecret js (VStr label) w
  = (Ok (cached_value (cache_lookup (nutrition_key label) w)),
     record (CacheGet (nutrition_key label)) w).
Proof.
  intros Hlabel Hhit. unfold getNutritionFromFatSecret. cbv zeta.
  rewrite Hlabel. cbn [negb].
  rewrite (try_catch_bind_ok _ _ _ w label w) by reflexivity.
  rewrite (try_catch_bind_ok _ _ _ w (cache_lookup (nutrition_key label) w)
             (record (CacheGet (nutrition_key label)) w)) by reflexivity.
  rewrite Hhit. reflexivity.
Qed.

(** X6: when the search returns a list whose first result can be read and
    the detail lookup for that result's [food_id] returns a detail, the
    orchestrator returns the normalized record of that detail and stores it
    under the label's key for 86400 seconds; the other results play no
    part.  A later call whose label is the same up to letter case and
    surrounding white space, made while the entry is held, returns the
    record with the cache lookup as its only event. *)
Theorem nutrition_found_and_cached label w first rest w1 details w2 :
  truthy (VStr label) = true ->
  truthy (cached_value (cache_lookup (nutrition_key label) w)) = false ->
  searchFoods js label (number_of_Z 3) (record (CacheGet (nutrition_key label)) w)
  = (Ok (VArr (first :: rest)), w1) ->
  nullish first = false ->
  getFoodDetails js (prop first "food_id") w1 = (Ok details, w2) ->
  nullish details = false ->
  exists n,
    standardizeNutritionData js details = Ok n
    /\ getNutritionFromFatSecret js (VStr label) w
       = (Ok (nutrition_value n),
          cache_store (nutrition_key label) (StoredJson (nutrition_value n)) 86400 w2)
    /\ forall label2 w3,
         truthy (VStr label2) = true ->
         trim (toLowerCase label2) = trim (toLowerCase label) ->
         cache w3 !! nutrition_key label
         = Some {| stored := StoredJson (nutrition_value n);
                   fresh_until := clock w2 + 86400 * 1000 |} ->
         clock w3 <= clock w2 + 86400 * 1000 ->
         getNutritionFromFatSecret js (VStr label2) w3
         = (Ok (nutrition_value n), record (CacheGet (nutrition_key label)) w3).
Proof.
  intros Hlabel Hmiss Hsearch Hfirst Hdetails Hd.
  destruct (standardize_total _ Hd) as (n & Hn). exists n. split; [exact Hn|]. split.
  - rewrite (getNutrition_after_search _ _ _ _ Hlabel Hmiss Hsearch).
    cbn [truthy negb length_is_zero].
    rewrite (try_catch_bind_ok _ _ _ w1 false w1) by reflexivity.
    rewrite (try_catch_bind_ok _ _ _ w1 first w1) by reflexivity.
    rewrite (try_catch_bind_ok _ _ _ w1 (prop first "food_id") w1)
      by (unfold lift; rewrite (get_prop_prop _ _ Hfirst); reflexivity).
    rewrite (try_catch_bind_ok _ _ _ _ _ _ Hdetails).
    rewrite (try_catch_bind_ok _ _ _ w2 n w2) by (unfold lift; rewrite Hn; reflexivity).
    reflexivity.
  - intros label2 w3 Hlabel2 Hsame Hentry Hfresh.
    assert (nutrition_key label2 = nutrition_key label) as Hkey
        by (unfold nutrition_key; rewrite Hsame; reflexivity).
    pose proof (cache_lookup_entry _ _ _ _ Hentry Hfresh) as Hlook.
    rewrite (getNutrition_cached label2 w3 Hlabel2); rewrite Hkey, Hlook; reflexivity.
Qed.


(** ** The token manager and the cache *)

(** X13: a call of the token manager that fails leaves the cache as it
    was, and a call that returns a token leaves, under the token key, a
    stored token with that access token. *)
Theorem token_manager_cache_effect w r w' :
  getAccessToken w = (r, w') ->
  match r with
  | Throw _ => cache w' = cache w
  | Ok accessToken =>
      exists t f,
        cache w' !! TOKEN_CACHE_KEY = Some {| stored := StoredToken t; fresh_until := f |}
        /\ access_token (token_data t) = accessToken
  end.
Proof.
  destruct (usable_token w) as [t|] eqn:Hu.
  - rewrite (getAccessToken_cached _ _ Hu). intros H. injection H as <- <-.
    unfold usable_token, cache_lookup in Hu. cbn [cache record].
    destruct (cache w !! TOKEN_CACHE_KEY) as [[st f]|]; [|discriminate Hu].
    cbn [fresh_until stored] in Hu.
    destruct (clock w <=? f); [|discriminate Hu].
    destruct st as [t'|v]; [|discriminate Hu].
    destruct (expires_at t' >? clock w); [|discriminate Hu].
    injection Hu as ->. exists t, f. split; reflexivity.
  - rewrite (getAccessToken_refresh _ Hu).
    destruct (credentials w) as [[clientId clientSecret]|] eqn:Hc.
    + rewrite (request_token_answered (record (CacheGet TOKEN_CACHE_KEY) w)
                 clientId clientSecret _ Hc eq_refl).
      destruct (token_endpoint _ _ _) as [l [m|resp]]; cbn [outcome latency].
      * intros H. injection H as <- <-. reflexivity.
      * destruct (ok resp); [destruct (json resp) as [td|]|];
          intros H; injection H as <- <-; try reflexivity.
        eexists _, _. split.
        { unfold store_token, cache_store. cbn [cache record set_cache].
          apply lookup_insert_eq. }
        reflexivity.
    + rewrite (request_token_unconfigured (record (CacheGet TOKEN_CACHE_KEY) w) Hc).
      intros H. injection H as <- <-. reflexivity.
Qed.

(** ** Where the adapter writes *)

Lemma autocompleteSearch_emits expression maxResults region :
  emits (allowed (fun k =>
                    k = TOKEN_CACHE_KEY
                    \/ exists s, k = autocomplete_call_key js s maxResults region))
        (autocompleteSearch js expression maxResults region).
Proof.
  unfold autocompleteSearch. cbv zeta.
  repeat first [ apply getAccessToken_emits_among; left; reflexivity | emits_step ];
    right; eexists; reflexivity.
Qed.

Lemma getNutrition_emits_adapter_keys foodLabel :
  emits (allowed (adapter_key js)) (getNutritionFromFatSecret js foodLabel).
Proof.
  unfold getNutritionFromFatSecret. cbv zeta.
  apply emits_try_catch; [|intros e; apply emits_ret].
  destruct (negb (truthy foodLabel)); [apply emits_ret|].
  apply emits_bind; [apply emits_lift | intros label].
  apply emits_bind; [apply emits_getCachedResponse; exact I | intros cached].
  destruct (truthy (cached_value cached)); [apply emits_ret|].
  apply emits_bind.
  { eapply emits_weaken; [|apply searchFoods_emits].
    intros [k|k v ttl|req]; cbn [allowed]; try exact (fun x => x).
    intros [-> | ->]; [left; reflexivity | right; left; eexists; reflexivity]. }
  intros results.
  apply emits_bind; [apply emits_lift | intros none].
  destruct none; [apply emits_ret|].
  apply emits_bind; [apply emits_lift | intros first].
  apply emits_bind; [apply emits_lift | intros foodId].
  apply emits_bind.
  { eapply emits_weaken; [|apply getFoodDetails_emits].
    intros [k|k v ttl|req]; cbn [allowed]; try exact (fun x => x).
    intros [-> | ->]; [left; reflexivity | right; right; left; eexists; reflexivity]. }
  intros details.
  apply emits_bind; [apply emits_lift | intros n].
  apply emits_bind; [|intros ?; apply emits_ret].
  apply emits_cacheResponse. cbn [allowed]. right. right. right. eexists. reflexivity.
Qed.

(** X12: every operation of the adapter writes the cache only under the
    token key and under its own key: the token manager under
    [fatsecret_token], the search under the query's key, the detail lookup
    under the food's key, the autocomplete under an autocomplete key of its
    [maxResults] and [region], and the orchestrator, through them, only
    under the token, search, food and nutrition keys. *)
Theorem adapter_writes_own_keys :
  emits (allowed (eq TOKEN_CACHE_KEY)) getAccessToken
  /\ (forall query maxResults,
      emits (allowed (fun k => k = TOKEN_CACHE_KEY \/ k = search_key query))
            (searchFoods js query maxResults))
  /\ (forall foodId,
      emits (allowed (fun k => k = TOKEN_CACHE_KEY \/ k = food_key js foodId))
            (getFoodDetails js foodId))
  /\ (forall expression maxResults region,
      emits (allowed (fun k =>
                        k = TOKEN_CACHE_KEY
                        \/ exists s, k = autocomplete_call_key js s maxResults region))
            (autocompleteSearch js expression maxResults region))
  /\ (forall foodLabel,
      emits (allowed (adapter_key js)) (getNutritionFromFatSecret js foodLabel)).
Proof.
  split; [apply getAccessToken_emits|].
  split; [intros; apply searchFoods_emits|].
  split; [intros; apply getFoodDetails_emits|].
  split; [intros; apply autocompleteSearch_emits|].
  intros; apply getNutrition_emits_adapter_keys.
Qed.

(** ** The normalizer on a list of servings *)

Lemma standardized_of_falsy_serving payload s :
  truthy s = false ->
  standardized js payload s = default_nutrition (prop payload "food_name").
Proof.
  intros Hf. unfold standardized, default_nutrition, MICRONUTRIENTS, add_micro.
  cbn [fold_left fst snd]. rewrite !(prop_falsy _ _ Hf), !parseFloat_undefined.
  reflexivity.
Qed.

(** X14: only the first serving counts.  A detail whose [servings.serving]
    is a list gives the record of the detail whose [servings.serving] is the
    first element of that list alone, the other fields being the same
    (for a first element that is not itself a list). *)
Theorem only_first_serving_counts others s rest :
  isArray s = false ->
  standardizeNutritionData js (detail_with_serving others (VArr (s :: rest)))
  = standardizeNutritionData js (detail_with_serving others s).
Proof.
  intros Hs.
  assert (selected_serving (detail_with_serving others (VArr (s :: rest))) = Some s)
    as Hsel1 by reflexivity.
  assert (selected_serving (detail_with_serving others s)
          = if truthy s then Some s else None) as Hsel2.
  { unfold selected_serving, detail_with_serving. cbn.
    destruct (truthy s); [|reflexivity]. destruct s; try reflexivity. discriminate Hs. }
  assert (prop (detail_with_serving others (VArr (s :: rest))) "food_name"
          = prop (detail_with_serving others s) "food_name") as Hname by reflexivity.
  destruct (nullish s) eqn:Hn.
  - rewrite (standardize_no_serving (detail_with_serving others (VArr (s :: rest))))
      by (try reflexivity; rewrite Hsel1; exact Hn).
    rewrite (standardize_no_serving (detail_with_serving others s)); [reflexivity..|].
    rewrite Hsel2. destruct (truthy s); [exact Hn | exact I].
  - rewrite (standardize_serving _ _ Hsel1 Hn).
    destruct (truthy s) eqn:Ht.
    + rewrite (standardize_serving _ _ Hsel2 Hn). reflexivity.
    + rewrite (standardize_no_serving (detail_with_serving others s));
        [|reflexivity | rewrite Hsel2; exact I].
      rewrite (standardized_of_falsy_serving _ _ Ht). reflexivity.
Qed.

(** ** The region of an autocomplete call *)

(** X15: a region that is absent or empty (undefined, null, the empty
    string) is keyed as "default" and is not sent, so all such calls share
    the cache entry of the call without region; a region that is given is
    sent as the [region] field of the request. *)
Theorem autocomplete_region_default accessToken expression maxResults region :
  (truthy region = false ->
   autocomplete_call_key js expression maxResults region
   = autocomplete_call_key js expression maxResults VNull
   /\ field_of_body "region"
        (autocomplete_call_request js accessToken expression maxResults region)
      = None)
  /\ (truthy region = true ->
      field_of_body "region"
        (autocomplete_call_request js accessToken expression maxResults region)
      = Some (toString js region)).
Proof.
  unfold autocomplete_call_key, autocomplete_call_request, autocomplete_key,
    autocomplete_request, field_of_body.
  split; intros Hr.
  - assert (truthy (or_default region VNull) = false) as Hr'
        by (destruct region; try discriminate Hr; try reflexivity; exact Hr).
    cbn [body find app fst String.eqb Ascii.eqb Bool.eqb]. rewrite Hr'.
    unfold js_or. rewrite Hr'. split; reflexivity.
  - assert (or_default region VNull = region) as ->
        by (destruct region; try discriminate Hr; reflexivity).
    cbn [body find app fst String.eqb Ascii.eqb Bool.eqb]. rewrite Hr. reflexivity.
Qed.

(** ** The callable handlers over the adapter *)

Lemma getNutrition_never_throws foodLabel w :
  exists v w', getNutritionFromFatSecret js foodLabel w = (Ok v, w').
Proof.
  unfold getNutritionFromFatSecret, try_catch.
  destruct (_ w) as [[a|e] w0]; eexists _, _; reflexivity.
Qed.

Lemma length_text_ok v : nullish v = false -> exists t, length_text v = Ok t.
Proof. destruct v; intros H; try discriminate H; eexists; reflexivity. Qed.

Lemma nonempty_truthy s : s <> "" -> truthy (VStr s) = true.
Proof. destruct s; [contradiction | reflexivity]. Qed.

(** X8: called with no payload ([data] null or undefined), each handler
    raises a [TypeError], not an [HttpsError]: the read of the argument
    raises inside the [try] block, and the log line of the [catch] block
    reads the same property and raises again. *)
Theorem handlers_raise_on_absent_data fatSecretAPI data w :
  nullish data = true ->
  (exists m, searchFatSecretNutrition fatSecretAPI data w = (Throw (JsTypeError m), w))
  /\ (exists m,
        getFatSecretFoodDetails js fatSecretAPI data w = (Throw (JsTypeError m), w))
  /\ (exists m,
        getAutocompleteSuggestions fatSecretAPI data w = (Throw (JsTypeError m), w)).
Proof.
  intros Hd. destruct data; try discriminate Hd;
    (split; [|split]); eexists; reflexivity.
Qed.

(** X9: over the adapter, [searchFatSecretNutrition] called with a
    non-empty string [foodName] never fails: it returns the result of the
    orchestrator on the trimmed name, with [success] true and the record
    under [nutritionData] when there is one, and with [success] false when
    the orchestrator returned [null], which is also what a failure of the
    upstream gives. *)
Theorem nutrition_handler_never_fails data s w :
  nullish data = false ->
  prop data "foodName" = VStr s ->
  s <> "" ->
  exists v w' fields,
    getNutritionFromFatSecret js (VStr (trim s)) w = (Ok v, w')
    /\ searchFatSecretNutrition (fatSecretAPI_module js) data w = (Ok (VObj fields), w')
    /\ field fields "success" = VBool (truthy v)
    /\ field fields "source" = VStr "FatSecret"
    /\ (truthy v = true -> field fields "nutritionData" = v).
Proof.
  intros Hd Hname Hs.
  destruct (getNutrition_never_throws (VStr (trim s)) w) as (v & w' & Hrun).
  exists v, w'.
  assert (forall fields,
            (if negb (truthy v)
             then ret (VObj [("success", VBool false);
                             ("message", VStr ("No nutrition data found for " +:+ dq
                                               +:+ trim s +:+ dq));
                             ("source", VStr "FatSecret")])
             else ret (VObj [("success", VBool true);
                             ("source", VStr "FatSecret");
                             ("nutritionData", v);
                             ("message", VStr ("Found nutrition data for " +:+ dq
                                               +:+ trim s +:+ dq +:+ " from FatSecret"))]))
              w' = (Ok (VObj fields), w') ->
            searchFatSecretNutrition (fatSecretAPI_module js) data w
            = (Ok (VObj fields), w')) as Hhandler.
  { intros fields Hret. unfold searchFatSecretNutrition.
    rewrite (try_catch_bind_ok _ _ _ w (VStr s) w)
      by (unfold lift; rewrite (get_prop_prop _ _ Hd), Hname; reflexivity).
    rewrite (nonempty_truthy _ Hs). cbn [negb].
    rewrite (try_catch_bind_ok _ _ _ w s w) by reflexivity.
    cbv zeta. cbn [api_getNutritionFromFatSecret fatSecretAPI_module].
    rewrite (try_catch_bind_ok _ _ _ _ _ _ Hrun).
    unfold try_catch. rewrite Hret. reflexivity. }
  destruct (truthy v) eqn:Hv; cbn [negb] in Hhandler.
  - eexists. split; [exact Hrun|]. split; [apply Hhandler; reflexivity|].
    repeat split; reflexivity.
  - eexists. split; [exact Hrun|]. split; [apply Hhandler; reflexivity|].
    repeat split; try reflexivity. discriminate.
Qed.

(** X10: over the adapter, [getAutocompleteSuggestions] called with a
    non-empty string [query] always answers with [success] true and the
    list that [autocompleteSearch] returned for the trimmed query, with
    [maxResults] defaulting to 4 and [region] to null; a failure of the
    upstream shows as an empty list, not as an error. *)
Theorem autocomplete_handler_always_succeeds data s w :
  nullish data = false ->
  prop data "query" = VStr s ->
  s <> "" ->
  exists suggestions w' fields,
    autocompleteSearch js (VStr (trim s))
      (js_or (prop data "maxResults") (VNum (number_of_Z 4)))
      (js_or (prop data "region") VNull) w
    = (Ok suggestions, w')
    /\ getAutocompleteSuggestions (fatSecretAPI_module js) data w
       = (Ok (VObj fields), w')
    /\ field fields "success" = VBool true
    /\ field fields "suggestions" = suggestions.
Proof.
  intros Hd Hquery Hs.
  destruct (autocompleteSearch_returns (VStr (trim s))
              (js_or (prop data "maxResults") (VNum (number_of_Z 4)))
              (js_or (prop data "region") VNull) w)
    as (suggestions & w' & Hrun & Hshape).
  assert (nullish suggestions = false) as Hnn.
  { destruct Hshape as [Harr | (s' & _ & _ & Ht)].
    - destruct suggestions; try discriminate Harr; reflexivity.
    - apply truthy_not_nullish. exact Ht. }
  destruct (length_text_ok _ Hnn) as (len & Hlen).
  exists suggestions, w'. eexists. split; [exact Hrun|]. split.
  - unfold getAutocompleteSuggestions.
    rewrite (try_catch_bind_ok _ _ _ w (VStr s) w)
      by (unfold lift; rewrite (get_prop_prop _ _ Hd), Hquery; reflexivity).
    rewrite (nonempty_truthy _ Hs). cbn [negb].
    rewrite (try_catch_bind_ok _ _ _ w s w) by reflexivity.
    cbv zeta.
    rewrite (try_catch_bind_ok _ _ _ w (prop data "maxResults") w)
      by (unfold lift; rewrite (get_prop_prop _ _ Hd); reflexivity).
    rewrite (try_catch_bind_ok _ _ _ w (prop data "region") w)
      by (unfold lift; rewrite (get_prop_prop _ _ Hd); reflexivity).
    cbn [api_autocompleteSearch fatSecretAPI_module].
    rewrite (try_catch_bind_ok _ _ _ _ _ _ Hrun).
    rewrite (try_catch_bind_ok _ _ _ w' len w') by (unfold lift; rewrite Hlen; reflexivity).
    reflexivity.
  - split; reflexivity.
Qed.


End Properties.

(** * Evaluations on concrete inputs *)





(** C4, as stated, fails: with the client id and secret unset, a call
    that finds an unexpired token in the cache returns it. *)
Lemma cached_token_without_credentials :
  credentials unconfigured_cached_world = None
  /\ getAccessToken unconfigured_cached_world
     = (Ok "tok-1", record (CacheGet TOKEN_CACHE_KEY) unconfigured_cached_world).
Proof. split; reflexivity. Qed.

Lemma token_failures_witness :
  (exists e,
     getAccessToken unconfigured_world
     = (Throw e, record (CacheGet TOKEN_CACHE_KEY) unconfigured_world)
     /\ ConfigurationError e)
  /\ (exists e,
        getAccessToken refused_world
        = (Throw e, after_request (token_request "client" "secret") 120
                      (record (CacheGet TOKEN_CACHE_KEY) refused_world))
        /\ UpstreamError e).
Proof.
  split.
  - exact (proj1 (token_failures unconfigured_world eq_refl) eq_refl).
  - exact (proj2 (token_failures refused_world eq_refl)
             "client" "secret" 120%N _ eq_refl eq_refl eq_refl).
Defined.

Lemma token_cached_until_expiry_witness :
  exists w1,
    getAccessToken cold_world = (Ok "tok-1", w1)
    /\ clock w1 = 1700000000120
    /\ getAccessToken (advance 3539999 w1)
       = (Ok "tok-1", record (CacheGet TOKEN_CACHE_KEY) (advance 3539999 w1))
    /\ exists res w3 later,
         getAccessToken (advance 3540000 w1) = (res, w3)
         /\ trace w3
            = later ++ Sent (token_request "client" "secret")
                :: CacheGet TOKEN_CACHE_KEY :: trace w1.
Proof.
  destruct (token_cached_until_expiry cold_world "client" "secret" 120%N _ sample_token
              eq_refl eq_refl eq_refl eq_refl eq_refl)
    as (w1 & Hrun & Hclock & _ & _ & _ & H3600).
  exists w1. split; [exact Hrun|]. split; [exact Hclock|].
  split.
  - apply (proj1 (H3600 eq_refl 3539999)). lia.
  - apply (proj2 (H3600 eq_refl 3540000)). lia.
Defined.

Lemma autocomplete_short_expression_witness :
  autocompleteSearch integer_builtins (VStr "a") VUndefined VUndefined cold_world
  = (Ok (VArr []), cold_world).
Proof.
  apply (autocomplete_short_expression integer_builtins (VStr "a")).
  right. right. exists "a". split; [reflexivity|]. apply Nat.ltb_lt. reflexivity.
Defined.

(** C1 at the failing input: each handler, called with a payload that
    lacks its required argument, raises [internal], not
    [invalid-argument]. *)
Lemma handlers_rewrap_every_error_witness :
  searchFatSecretNutrition (fatSecretAPI_module integer_builtins) (VObj []) cold_world
  = (Throw (HttpsError "internal" "Error searching for nutrition data"
              (Some "Missing food name to search")), cold_world)
  /\ getFatSecretFoodDetails integer_builtins (fatSecretAPI_module integer_builtins)
       (VObj []) cold_world
     = (Throw (HttpsError "internal" "Error getting food details"
                 (Some "Missing food ID")), cold_world)
  /\ getAutocompleteSuggestions (fatSecretAPI_module integer_builtins) (VObj []) cold_world
     = (Throw (HttpsError "internal" "Error getting autocomplete suggestions"
                 (Some "Missing search query")), cold_world).
Proof.
  destruct (handlers_rewrap_every_error integer_builtins
              (fatSecretAPI_module integer_builtins) (VObj []) cold_world eq_refl)
    as (H1 & H2 & H3 & _).
  split; [exact (H1 eq_refl)|]. split; [exact (H2 eq_refl) | exact (H3 eq_refl)].
Defined.


Lemma nutrition_lookup_fails_open_witness :
  (exists v w' delta,
     getNutritionFromFatSecret integer_builtins (VStr "kale") cold_world = (Ok v, w')
     /\ trace w' = delta ++ trace cold_world
     /\ (v = VNull -> Forall no_nutrition_put delta))
  /\ exists w',
       getNutritionFromFatSecret integer_builtins (VStr "kale") cold_world = (Ok VNull, w').
Proof.
  destruct (nutrition_lookup_fails_open integer_builtins) as (Hopen & _ & _ & Hkale).
  split; [exact (Hopen (VStr "kale") cold_world)|].
  apply Hkale; vm_compute; reflexivity.
Defined.

(** C8, as stated, fails: the search answers with an empty list in the
    repeated field, the result is the empty list, and it is written under
    the query's key (as is the token under the token key). *)
Lemma empty_result_is_cached :
  exists w',
    searchFoods integer_builtins "kale" (number_of_Z 3) empty_list_world
    = (Ok (VArr []), w')
    /\ cache w' !! search_key "kale"
       = Some {| stored := StoredJson (VArr []);
                 fresh_until := clock w' + 86400 * 1000 |}
    /\ hd_error (trace w')
       = Some (CachePut (search_key "kale") (StoredJson (VArr [])) 86400).
Proof.
  eexists. split; [vm_compute; reflexivity|]. split; vm_compute; reflexivity.
Qed.

Lemma search_caches_present_results_witness :
  exists v w' delta,
    searchFoods integer_builtins "Kale" (number_of_Z 3) online_world = (Ok v, w')
    /\ trace w' = delta ++ trace online_world
    /\ v = VArr [kale_summary]
    /\ cache w' !! search_key "Kale"
       = Some {| stored := StoredJson v; fresh_until := clock w' + 86400 * 1000 |}.
Proof.
  destruct (search_caches_present_results integer_builtins "Kale" (number_of_Z 3)
              online_world) as (v & w' & delta & Hrun & Htrace & Hcase).
  { vm_compute. reflexivity. }
  exists v, w', delta. split; [exact Hrun|]. split; [exact Htrace|].
  assert (search_response integer_builtins "Kale" (number_of_Z 3) online_world
          = Some sample_search_body) as Hresp by (vm_compute; reflexivity).
  rewrite Hresp in Hcase.
  change (truthy (envelope sample_search_body "foods" "food")) with true in Hcase.
  destruct Hcase as (Hv & _ & Hcache). split; [exact Hv | exact Hcache].
Defined.



(** * Evaluations of the further properties *)

Lemma search_cache_ignores_case_and_padding_witness :
  exists foods w1,
    searchFoods integer_builtins "Apple" (number_of_Z 3) online_world = (Ok foods, w1)
    /\ searchFoods integer_builtins "apple " (number_of_Z 10) (advance 3600000 w1)
       = (Ok foods, record (CacheGet (search_key "Apple")) (advance 3600000 w1)).
Proof.
  destruct (search_cache_ignores_case_and_padding integer_builtins "Apple" "apple "
              (number_of_Z 3) online_world sample_search_body)
    as (_ & _ & foods & w1 & Hrun & Hlater).
  - reflexivity.
  - vm_compute. reflexivity.
  - vm_compute. reflexivity.
  - reflexivity.
  - exists foods, w1. split; [exact Hrun|].
    apply Hlater; [reflexivity|]. cbn [clock advance]. lia.
Defined.

Lemma details_fail_closed_witness :
  exists w2,
    getFoodDetails integer_builtins (VStr "36320") failing_api_world
    = (Throw (JsError "Failed to get FatSecret food details: 500"), w2).
Proof.
  destruct (details_fail_closed integer_builtins (VStr "36320") failing_api_world eq_refl)
    as (_ & Hanswer & _).
  pose proof (Hanswer "tok-1"
                (snd (getAccessToken
                        (record (CacheGet (food_key integer_builtins (VStr "36320")))
                           failing_api_world)))
                120%N (Responded {| status := 500; text := ""; json := None |})) as H.
  cbv zeta in H. eexists. apply H; vm_compute; reflexivity.
Defined.

Lemma details_cached_for_a_week_witness :
  (exists w',
     getFoodDetails integer_builtins (VStr "36320") online_world = (Ok kale_detail, w')
     /\ getFoodDetails integer_builtins (VStr "36320") (advance 86400000 w')
        = (Ok kale_detail,
           record (CacheGet (food_key integer_builtins (VStr "36320")))
             (advance 86400000 w')))
  /\ (exists w',
        getFoodDetails integer_builtins (VStr "36320") empty_body_world
        = (Ok VUndefined, w')
        /\ forall r2 w3,
             getFoodDetails integer_builtins (VStr "36320") (advance 1000 w') = (r2, w3) ->
             exists later,
               trace w3
               = later ++ CacheGet TOKEN_CACHE_KEY
                   :: CacheGet (food_key integer_builtins (VStr "36320")) :: trace w').
Proof.
  split.
  - destruct (details_cached_for_a_week integer_builtins (VStr "36320") online_world "tok-1"
                (snd (getAccessToken
                        (record (CacheGet (food_key integer_builtins (VStr "36320")))
                           online_world)))
                120%N {| status := 200; text := "";
                         json := Some (VObj [("food", kale_detail)]) |}
                (VObj [("food", kale_detail)]) kale_detail
                ltac:(vm_compute; reflexivity) ltac:(vm_compute; reflexivity) ltac:(vm_compute; reflexivity) ltac:(vm_compute; reflexivity) ltac:(vm_compute; reflexivity) ltac:(vm_compute; reflexivity))
      as (w' & Hrun & _ & _ & Hhit & _).
    exists w'. split; [exact Hrun|].
    apply (Hhit eq_refl); [reflexivity|]. cbn [clock advance]. lia.
  - destruct (details_cached_for_a_week integer_builtins (VStr "36320") empty_body_world
                "tok-1"
                (snd (getAccessToken
                        (record (CacheGet (food_key integer_builtins (VStr "36320")))
                           empty_body_world)))
                120%N {| status := 200; text := ""; json := Some (VObj []) |}
                (VObj []) VUndefined
                ltac:(vm_compute; reflexivity) ltac:(vm_compute; reflexivity) ltac:(vm_compute; reflexivity) ltac:(vm_compute; reflexivity) ltac:(vm_compute; reflexivity) ltac:(vm_compute; reflexivity))
      as (w' & Hrun & _ & _ & _ & Hmiss).
    exists w'. split; [exact Hrun|].
    intros r2 w3 Hrun2. apply (Hmiss eq_refl (advance 1000 w') r2 w3); [reflexivity | exact Hrun2].
Defined.

Lemma autocomplete_max_results_clamped_witness :
  field_of_body "max_results"
    (autocomplete_call_request integer_builtins "tok-1" "chicken"
       (VNum (number_of_Z 50)) VUndefined)
  = Some "10"
  /\ field_of_body "max_results"
       (autocomplete_call_request integer_builtins "tok-1" "chicken" VUndefined VUndefined)
     = Some "4".
Proof.
  destruct (autocomplete_max_results_clamped integer_builtins "tok-1" "chicken" VUndefined)
    as (Hnum & Hdefault).
  split; [|exact Hdefault].
  destruct (Hnum (number_of_Z 50)) as (m & Hfield & _ & _ & Habove).
  rewrite Hfield, (Habove eq_refl). reflexivity.
Defined.

Lemma nutrition_found_and_cached_witness :
  exists n w',
    standardizeNutritionData integer_builtins kale_detail = Ok n
    /\ getNutritionFromFatSecret integer_builtins (VStr "Kale") online_world
       = (Ok (nutrition_value n), w')
    /\ getNutritionFromFatSecret integer_builtins (VStr " KALE ") (advance 60000 w')
       = (Ok (nutrition_value n),
          record (CacheGet (nutrition_key "Kale")) (advance 60000 w')).
Proof.
  destruct (nutrition_found_and_cached integer_builtins "Kale" online_world
              kale_summary []
              (snd (searchFoods integer_builtins "Kale" (number_of_Z 3)
                      (record (CacheGet (nutrition_key "Kale")) online_world)))
              kale_detail
              (snd (getFoodDetails integer_builtins (VStr "36320")
                      (snd (searchFoods integer_builtins "Kale" (number_of_Z 3)
                              (record (CacheGet (nutrition_key "Kale")) online_world)))))
              ltac:(vm_compute; reflexivity) ltac:(vm_compute; reflexivity) ltac:(vm_compute; reflexivity) ltac:(vm_compute; reflexivity) ltac:(vm_compute; reflexivity) ltac:(vm_compute; reflexivity))
    as (n & Hn & Hrun & Hlater).
  exists n. eexists. split; [exact Hn|]. split; [exact Hrun|].
  apply Hlater.
  - reflexivity.
  - reflexivity.
  - unfold cache_store. cbn [cache advance record set_cache clock]. apply lookup_insert_eq.
  - unfold cache_store. cbn [clock advance record set_cache]. lia.
Defined.


Lemma token_manager_cache_effect_witness :
  (exists w', getAccessToken refused_world
              = (Throw (JsError "Failed to get FatSecret token: 401"), w')
              /\ cache w' = cache refused_world)
  /\ (exists w' t f,
        getAccessToken cold_world = (Ok "tok-1", w')
        /\ cache w' !! TOKEN_CACHE_KEY = Some {| stored := StoredToken t; fresh_until := f |}
        /\ access_token (token_data t) = "tok-1").
Proof.
  split.
  - eexists. split; [vm_compute; reflexivity|].
    exact (token_manager_cache_effect refused_world _ _ eq_refl).
  - destruct (token_manager_cache_effect cold_world (Ok "tok-1")
                (snd (getAccessToken cold_world)) eq_refl) as (t & f & Hentry & Htok).
    exists (snd (getAccessToken cold_world)), t, f.
    split; [vm_compute; reflexivity|]. split; [exact Hentry | exact Htok].
Defined.

Lemma only_first_serving_counts_witness :
  standardizeNutritionData integer_builtins
    (detail_with_serving [("food_name", VStr "Kale")] (VArr [kale_serving; VObj []]))
  = standardizeNutritionData integer_builtins
      (detail_with_serving [("food_name", VStr "Kale")] kale_serving).
Proof.
  exact (only_first_serving_counts integer_builtins [("food_name", VStr "Kale")]
           kale_serving [VObj []] eq_refl).
Defined.

Lemma autocomplete_region_default_witness :
  autocomplete_call_key integer_builtins "ka" VUndefined (VStr "")
  = autocomplete_call_key integer_builtins "ka" VUndefined VNull
  /\ field_of_body "region"
       (autocomplete_call_request integer_builtins "tok-1" "ka" VUndefined (VStr ""))
     = None
  /\ field_of_body "region"
       (autocomplete_call_request integer_builtins "tok-1" "ka" VUndefined (VStr "US"))
     = Some "US".
Proof.
  destruct (proj1 (autocomplete_region_default integer_builtins "tok-1" "ka" VUndefined
                     (VStr "")) eq_refl) as (Hkey & Hnone).
  split; [exact Hkey|]. split; [exact Hnone|].
  exact (proj2 (autocomplete_region_default integer_builtins "tok-1" "ka" VUndefined
                  (VStr "US")) eq_refl).
Defined.

Lemma handlers_raise_on_absent_data_witness :
  (exists m,
     searchFatSecretNutrition (fatSecretAPI_module integer_builtins) VNull online_world
     = (Throw (JsTypeError m), online_world))
  /\ (exists m,
        getFatSecretFoodDetails integer_builtins (fatSecretAPI_module integer_builtins)
          VNull online_world
        = (Throw (JsTypeError m), online_world))
  /\ (exists m,
        getAutocompleteSuggestions (fatSecretAPI_module integer_builtins) VNull online_world
        = (Throw (JsTypeError m), online_world)).
Proof.
  exact (handlers_raise_on_absent_data integer_builtins
           (fatSecretAPI_module integer_builtins) VNull online_world eq_refl).
Defined.

Lemma nutrition_handler_never_fails_witness :
  exists v w' fields,
    getNutritionFromFatSecret integer_builtins (VStr "kale") cold_world = (Ok v, w')
    /\ searchFatSecretNutrition (fatSecretAPI_module integer_builtins)
         (VObj [("foodName", VStr " kale ")]) cold_world
       = (Ok (VObj fields), w')
    /\ field fields "success" = VBool (truthy v)
    /\ field fields "source" = VStr "FatSecret"
    /\ (truthy v = true -> field fields "nutritionData" = v).
Proof.
  apply (nutrition_handler_never_fails integer_builtins
           (VObj [("foodName", VStr " kale ")]) " kale " cold_world).
  - reflexivity.
  - reflexivity.
  - discriminate.
Defined.

Lemma autocomplete_handler_always_succeeds_witness :
  exists suggestions w' fields,
    autocompleteSearch integer_builtins (VStr "ka") (VNum (number_of_Z 4)) VNull cold_world
    = (Ok suggestions, w')
    /\ getAutocompleteSuggestions (fatSecretAPI_module integer_builtins)
         (VObj [("query", VStr "ka")]) cold_world
       = (Ok (VObj fields), w')
    /\ field fields "success" = VBool true
    /\ field fields "suggestions" = suggestions.
Proof.
  apply (autocomplete_handler_always_succeeds integer_builtins
           (VObj [("query", VStr "ka")]) "ka" cold_world).
  - reflexivity.
  - reflexivity.
  - discriminate.
Defined.

